(** * SEO checkup: the signal-extraction and scoring engine of
      [src/pages/SeoCheckup.tsx], embedded in Rocq.

    The TypeScript code works on JavaScript strings (sequences of UTF-16
    code units), on regular expressions with the [i] and [g] flags, and on
    JavaScript numbers (IEEE 754 binary64).  Strings are lists of code
    units, numbers that go through a division are primitive floats, and the
    regular expressions are terms of a small syntax run by a backtracking
    matcher that follows the priority order of the ECMAScript matcher. *)

From Stdlib Require Import ZArith NArith List Ascii Bool Lia Floats.
From Stdlib Require String DecimalString.
Import ListNotations String.StringSyntax.
Open Scope string_scope.

Set Implicit Arguments.

(** ** JavaScript strings and numbers *)

Module Js.

(** A string is a list of UTF-16 code units. *)
Definition jsstring := list N.

Definition ch (a : ascii) : N := N_of_ascii a.

(** A string literal of the source (ASCII only; other code units are
    written as numbers). *)
Definition str (s : String.string) : jsstring :=
  map ch (String.list_ascii_of_string s).

(** The double quote, code unit 34. *)
Definition dq : N := 34%N.

Definition jsstring_eqb (a b : jsstring) : bool :=
  if list_eq_dec N.eq_dec a b then true else false.

(** [s.startsWith(p)] *)
Fixpoint startsWith (s p : jsstring) {struct p} : bool :=
  match p, s with
  | [], _ => true
  | _ :: _, [] => false
  | y :: p', x :: s' => (x =? y)%N && startsWith s' p'
  end.

(** [s.includes(needle)] *)
Fixpoint includes (s needle : jsstring) : bool :=
  startsWith s needle ||
  match s with
  | [] => false
  | _ :: s' => includes s' needle
  end.

(** ECMAScript LineTerminator code units. *)
Definition is_line_terminator (x : N) : bool :=
  existsb (N.eqb x) [10; 13; 8232; 8233]%N.

(** ECMAScript WhiteSpace and LineTerminator code units: what [\s] matches
    and what [trim] strips. *)
Definition is_space (x : N) : bool :=
  existsb (N.eqb x) [9; 10; 11; 12; 13; 32; 160; 5760; 8232; 8233; 8239; 8287;
                     12288; 65279]%N
  || ((8192 <=? x) && (x <=? 8202))%N.

Fixpoint trimStart (s : jsstring) : jsstring :=
  match s with
  | x :: s' => if is_space x then trimStart s' else s
  | [] => []
  end.

(** [s.trim()] *)
Definition trim (s : jsstring) : jsstring :=
  rev (trimStart (rev (trimStart s))).

(** An array length, or any non-negative integer, as a Number. *)
Definition Z_to_number (n : Z) : float :=
  if (n <? 0)%Z then PrimFloat.opp (PrimFloat.of_uint63 (Uint63.of_Z (- n)))
  else PrimFloat.of_uint63 (Uint63.of_Z n).

Definition nat_to_number (n : nat) : float := Z_to_number (Z.of_nat n).

(** [Math.round(x)]: the integer nearest to [x], a tie going towards
    +Infinity; NaN, the infinities and the zeros are returned as they are,
    and a negative [x] that rounds to zero gives -0. *)
Definition Math_round (x : float) : float :=
  match Prim2SF x with
  | S754_finite s m e =>
      if (0 <=? e)%Z then x
      else
        let d := (2 ^ (- e))%Z in
        let q := (Zpos m / d)%Z in
        let r := (Zpos m mod d)%Z in
        if s then
          let n := if (2 * r <=? d)%Z then q else (q + 1)%Z in
          if (n =? 0)%Z then PrimFloat.opp PrimFloat.zero
          else Z_to_number (- n)
        else Z_to_number (if (d <=? 2 * r)%Z then q + 1 else q)%Z
  | _ => x
  end.

(** Exceptions: a computation returns a value or throws. *)
Inductive result (A : Type) : Type :=
| Ok (a : A)
| Throw (e : jsstring).
Arguments Ok {A} a.
Arguments Throw {A} e.

End Js.
Import Js.

(** ** Regular expressions *)

Module Regex.

(** A member of a character class [[...]]. *)
Inductive citem :=
| IChar (c : N)
| IRange (lo hi : N).

(** What one step of a pattern accepts: a literal character, [.], [\s],
    or a (possibly negated) class. *)
Inductive cset :=
| Lit (c : N)
| Dot
| Space
| Class (neg : bool) (items : list citem).

(** The patterns of this program are sequences of single-character
    steps, each with an optional quantifier, group parentheses and [$].
    [Mark] stands for an opening or a closing parenthesis of a capture
    group. *)
Inductive atom :=
| One (c : cset)
| Opt (c : cset)            (* c? *)
| Star (c : cset)           (* c* *)
| Plus (c : cset)           (* c+ *)
| LazyStar (c : cset)       (* c*? *)
| Mark
| AtEnd.                    (* $ *)

Record regex := {
  anchored : bool;          (* the pattern starts with ^ *)
  body : list atom;
  ignoreCase : bool;        (* flag i *)
  global : bool             (* flag g *)
}.

(** Canonicalize of the ECMAScript matcher under flag [i] (without flag
    [u]): the upper-case form of a code unit.  A code unit above 127 never
    canonicalizes to one below 128, and every pattern of this program is
    ASCII, so only the ASCII letters are folded. *)
Definition canon (x : N) : N :=
  if ((97 <=? x) && (x <=? 122))%N then (x - 32)%N else x.

Definition nrange (lo hi : N) : list N :=
  map N.of_nat (seq (N.to_nat lo) (N.to_nat hi + 1 - N.to_nat lo)).

Definition item_mem (ic : bool) (it : citem) (x : N) : bool :=
  match it with
  | IChar c => if ic then (canon c =? canon x)%N else (c =? x)%N
  | IRange lo hi =>
      if ic then existsb (fun a => (canon a =? canon x)%N) (nrange lo hi)
      else ((lo <=? x) && (x <=? hi))%N
  end.

Definition cset_mem (ic : bool) (c : cset) (x : N) : bool :=
  match c with
  | Lit k => item_mem ic (IChar k) x
  | Dot => negb (is_line_terminator x)
  | Space => is_space x
  | Class neg items => xorb neg (existsb (fun it => item_mem ic it x) items)
  end.

Section Quantifiers.
Variable R : Type.
Variable c : N -> bool.
Variable k : jsstring -> option R.

(** [c*] followed by [k]: the longest run is tried first. *)
Fixpoint greedy (s : jsstring) : option R :=
  match s with
  | x :: s' =>
      if c x then
        match greedy s' with
        | Some r => Some r
        | None => k s
        end
      else k s
  | [] => k s
  end.

(** [c*?] followed by [k]: the shortest run is tried first. *)
Fixpoint lazy (s : jsstring) : option R :=
  match k s with
  | Some r => Some r
  | None =>
      match s with
      | x :: s' => if c x then lazy s' else None
      | [] => None
      end
  end.

Definition one (s : jsstring) : option R :=
  match s with
  | x :: s' => if c x then k s' else None
  | [] => None
  end.
End Quantifiers.

(** A match of the pattern at the head of [s]: the input left at each
    [Mark], in order, and the input left after the match. *)
Fixpoint match_here (ic : bool) (p : list atom) (s : jsstring)
  : option (list jsstring * jsstring) :=
  match p with
  | [] => Some ([], s)
  | One c :: p' => one (cset_mem ic c) (match_here ic p') s
  | Opt c :: p' =>
      match one (cset_mem ic c) (match_here ic p') s with
      | Some r => Some r
      | None => match_here ic p' s
      end
  | Star c :: p' => greedy (cset_mem ic c) (match_here ic p') s
  | Plus c :: p' =>
      one (cset_mem ic c) (greedy (cset_mem ic c) (match_here ic p')) s
  | LazyStar c :: p' => lazy (cset_mem ic c) (match_here ic p') s
  | Mark :: p' =>
      match match_here ic p' s with
      | Some (ms, r) => Some (s :: ms, r)
      | None => None
      end
  | AtEnd :: p' =>
      match s with
      | [] => match_here ic p' s
      | _ :: _ => None
      end
  end.

(** The part of [s] before its suffix [rest]. *)
Definition consumed (s rest : jsstring) : jsstring :=
  firstn (length s - length rest) s.

(** The capture groups (none nested in this program) from the marks. *)
Fixpoint captures (ms : list jsstring) : list jsstring :=
  match ms with
  | o :: c :: ms' => consumed o c :: captures ms'
  | _ => []
  end.

(** The array [exec] returns: [m[0]], then the groups, and [index]. *)
Record Match := {
  index : nat;
  whole : jsstring;
  groups : list jsstring
}.

Definition match_at (re : regex) (i : nat) (s : jsstring) : option Match :=
  match match_here (ignoreCase re) (body re) s with
  | Some (ms, rest) =>
      Some {| index := i; whole := consumed s rest; groups := captures ms |}
  | None => None
  end.

Fixpoint search_from (re : regex) (i : nat) (s : jsstring) : option Match :=
  match match_at re i s with
  | Some m => Some m
  | None =>
      match s with
      | [] => None
      | _ :: s' => search_from re (S i) s'
      end
  end.

(** [re.exec(s)] for a regular expression without flag [g]: the leftmost
    match; with [^] only index 0 is tried. *)
Definition exec (re : regex) (s : jsstring) : option Match :=
  if anchored re then match_at re 0 s else search_from re 0 s.

(** [re.test(s)] *)
Definition test (re : regex) (s : jsstring) : bool :=
  match exec re s with Some _ => true | None => false end.

(** The successive matches of a [g] regular expression: after a match the
    scan resumes at its end ([skip] counts the code units still inside the
    last match), one further after an empty match. *)
Fixpoint scan (re : regex) (skip : nat) (s : jsstring) : list jsstring :=
  match skip with
  | S n =>
      match s with
      | [] => []
      | _ :: s' => scan re n s'
      end
  | O =>
      match match_at re 0 s with
      | Some m =>
          whole m ::
          match s with
          | [] => []
          | _ :: s' => scan re (pred (length (whole m))) s'
          end
      | None =>
          match s with
          | [] => []
          | _ :: s' => scan re 0 s'
          end
      end
  end.

(** [s.match(re)] with flag [g]: every match, or [null] when there is
    none. *)
Definition match_all (re : regex) (s : jsstring) : option (list jsstring) :=
  match scan re 0 s with
  | [] => None
  | ms => Some ms
  end.

(** [a || []] *)
Definition or_empty (a : option (list jsstring)) : list jsstring :=
  match a with Some l => l | None => [] end.

(** [s.replace(re, by)] without flag [g]: the first match is replaced. *)
Definition replace (re : regex) (by_ : jsstring) (s : jsstring) : jsstring :=
  match exec re s with
  | Some m =>
      firstn (index m) s ++ by_ ++ skipn (index m + length (whole m)) s
  | None => s
  end.

(** Pattern text: each character of a literal run is one step. *)
Definition lit (s : String.string) : list atom :=
  map (fun a => One (Lit (ch a))) (String.list_ascii_of_string s).

(** The class of the two quote characters, double and single. *)
Definition quote : cset := Class false [IChar dq; IChar (ch "'")].
(** Its complement: any code unit that is not a quote. *)
Definition not_quote : cset := Class true [IChar dq; IChar (ch "'")].
(** [[^>]] *)
Definition not_gt : cset := Class true [IChar (ch ">")].
(** [[1-6]] *)
Definition level_digit : cset := Class false [IRange (ch "1") (ch "6")].

End Regex.
Import Regex.

(** ** The page [SeoCheckup.tsx] *)

Module SeoCheckup.

(** The category strings the rows carry. *)
Inductive Category :=
| Basic | Performance | MetaTags | Content | Images | Social | Technical
| Links | Details.

Definition category_name (c : Category) : jsstring :=
  match c with
  | Basic => str "Basic"
  | Performance => str "Performance"
  | MetaTags => str "Meta Tags"
  | Content => str "Content"
  | Images => str "Images"
  | Social => str "Social"
  | Technical => str "Technical"
  | Links => str "Links"
  | Details => str "Details"
  end.

Definition category_eqb (a b : Category) : bool :=
  jsstring_eqb (category_name a) (category_name b).

(** [string | React.ReactNode]: a plain string, or a [span] element with
    its class and its text children. *)
Inductive ReactNode :=
| Text (s : jsstring)
| Span (className : jsstring) (children : list jsstring).

Record SeoResult := {
  label : jsstring;
  value : ReactNode;
  ok : bool;
  category : Category
}.

Record SeoScore := {
  score : nat;
  total : nat;
  percentage : float
}.

(** What the page takes from the browser it runs in. *)
Class Browser := {
  (** [window.location.hostname] *)
  location_hostname : jsstring;
  (** [new URL(u).hostname], or the TypeError the constructor throws *)
  URL_hostname : jsstring -> result jsstring;
  (** a number inside a template literal *)
  Number_toString : float -> jsstring
}.

(** *** The regular expressions of the source *)

(** [/^https?:\/\//i] *)
Definition re_scheme : regex :=
  {| anchored := true;
     body := lit "http" ++ [Opt (Lit (ch "s"))] ++ lit "://";
     ignoreCase := true; global := false |}.

(** [/<h[1-6][^>]*>(.*?)<\/h[1-6]>/gi] *)
Definition re_heading : regex :=
  {| anchored := false;
     body := lit "<h" ++ [One level_digit; Star not_gt] ++ lit ">"
             ++ [Mark; LazyStar Dot; Mark]
             ++ lit "</h" ++ [One level_digit] ++ lit ">";
     ignoreCase := true; global := true |}.

(** [/<h([1-6])/] *)
Definition re_level : regex :=
  {| anchored := false;
     body := lit "<h" ++ [Mark; One level_digit; Mark];
     ignoreCase := false; global := false |}.

(** [/<img[^>]*>/gi] *)
Definition re_img : regex :=
  {| anchored := false;
     body := lit "<img" ++ [Star not_gt] ++ lit ">";
     ignoreCase := true; global := true |}.

(** The Open Graph and Twitter patterns differ in the attribute and in the
    prefix of its value:
    [<meta[^>]*property=Q og:[^Q]*Q[^>]*>] and
    [<meta[^>]*name=Q twitter:[^Q]*Q[^>]*>], flags [gi], where Q is the
    class of the two quotes. *)
Definition re_meta_prefixed (attr prefix : String.string) : regex :=
  {| anchored := false;
     body := lit "<meta" ++ [Star not_gt] ++ lit attr ++ lit "="
             ++ [One quote] ++ lit prefix
             ++ [Star not_quote; One quote; Star not_gt] ++ lit ">";
     ignoreCase := true; global := true |}.

Definition re_og : regex := re_meta_prefixed "property" "og:".
Definition re_twitter : regex := re_meta_prefixed "name" "twitter:".

(** [<a[^>]*href=Q[^Q]*Q[^>]*>], flags [gi] *)
Definition re_link : regex :=
  {| anchored := false;
     body := lit "<a" ++ [Star not_gt] ++ lit "href="
             ++ [One quote; Star not_quote; One quote; Star not_gt]
             ++ lit ">";
     ignoreCase := true; global := true |}.

(** [/<title>(.*?)<\/title>/i] *)
Definition re_title : regex :=
  {| anchored := false;
     body := lit "<title>" ++ [Mark; LazyStar Dot; Mark] ++ lit "</title>";
     ignoreCase := true; global := false |}.

(** [<meta\s+name=Q NAME Q\s+content=Q(.*?)Q], flag [i]: the description
    and the keywords patterns. *)
Definition re_meta_content (name : String.string) : regex :=
  {| anchored := false;
     body := lit "<meta" ++ [Plus Space] ++ lit "name=" ++ [One quote]
             ++ lit name ++ [One quote; Plus Space] ++ lit "content="
             ++ [One quote; Mark; LazyStar Dot; Mark; One quote];
     ignoreCase := true; global := false |}.

Definition re_desc : regex := re_meta_content "description".
Definition re_keywords : regex := re_meta_content "keywords".

(** [<meta\s+name=Q viewport Q], flag [i] *)
Definition re_viewport : regex :=
  {| anchored := false;
     body := lit "<meta" ++ [Plus Space] ++ lit "name=" ++ [One quote]
             ++ lit "viewport" ++ [One quote];
     ignoreCase := true; global := false |}.

(** [<link[^>]*rel=Q canonical Q[^>]*>], flag [i] *)
Definition re_canonical : regex :=
  {| anchored := false;
     body := lit "<link" ++ [Star not_gt] ++ lit "rel=" ++ [One quote]
             ++ lit "canonical" ++ [One quote; Star not_gt] ++ lit ">";
     ignoreCase := true; global := false |}.

(** [/\/+$/] *)
Definition re_trailing_slashes : regex :=
  {| anchored := false;
     body := [Plus (Lit (ch "/")); AtEnd];
     ignoreCase := false; global := false |}.

(** [m[1]] *)
Definition group1 (m : Match) : jsstring := nth 0 (groups m) [].

(** *** The extractors *)

Definition try_catch (A : Type) (body handler : result A) : result A :=
  match body with
  | Ok a => Ok a
  | Throw _ => handler
  end.

Section WithBrowser.
Context {browser : Browser}.

Definition extractHostname (url : jsstring) : result jsstring :=
  try_catch
    (let url :=
       if negb (test re_scheme url) then str "http://" ++ url else url in
     URL_hostname url)
    (Ok (str "")).

Record HeadingCounts := {
  h1 : nat; h2 : nat; h3 : nat; h4 : nat; h5 : nat; h6 : nat
}.

(** [headingCounts[`h${level}`]++] *)
Definition bump (level : jsstring) (c : HeadingCounts) : HeadingCounts :=
  if jsstring_eqb level (str "1") then
    {| h1 := S (h1 c); h2 := h2 c; h3 := h3 c; h4 := h4 c; h5 := h5 c; h6 := h6 c |}
  else if jsstring_eqb level (str "2") then
    {| h1 := h1 c; h2 := S (h2 c); h3 := h3 c; h4 := h4 c; h5 := h5 c; h6 := h6 c |}
  else if jsstring_eqb level (str "3") then
    {| h1 := h1 c; h2 := h2 c; h3 := S (h3 c); h4 := h4 c; h5 := h5 c; h6 := h6 c |}
  else if jsstring_eqb level (str "4") then
    {| h1 := h1 c; h2 := h2 c; h3 := h3 c; h4 := S (h4 c); h5 := h5 c; h6 := h6 c |}
  else if jsstring_eqb level (str "5") then
    {| h1 := h1 c; h2 := h2 c; h3 := h3 c; h4 := h4 c; h5 := S (h5 c); h6 := h6 c |}
  else if jsstring_eqb level (str "6") then
    {| h1 := h1 c; h2 := h2 c; h3 := h3 c; h4 := h4 c; h5 := h5 c; h6 := S (h6 c) |}
  else c.

(** The body of the [forEach]: the level is read off the matched
    heading with a second pattern, which has no [i] flag. *)
Definition count_heading (c : HeadingCounts) (heading : jsstring)
  : HeadingCounts :=
  match exec re_level heading with
  | Some m => bump (group1 m) c
  | None => c
  end.

Record HeadingAnalysis := {
  headings : list jsstring;
  counts : HeadingCounts
}.

Definition analyzeHeadingStructure (html : jsstring) : HeadingAnalysis :=
  let headings := or_empty (match_all re_heading html) in
  let headingCounts :=
    {| h1 := 0; h2 := 0; h3 := 0; h4 := 0; h5 := 0; h6 := 0 |} in
  {| headings := headings;
     counts := fold_left count_heading headings headingCounts |}.

Record ImageAnalysis := { img_total : nat; withoutAlt : nat }.

(** The predicate of the [filter] in [analyzeImages]. *)
Definition img_without_alt (img : jsstring) : bool :=
  negb (includes img (str "alt="))
  || includes img (str "alt=" ++ [dq; dq])
  || includes img (str "alt=''").

Definition analyzeImages (html : jsstring) : ImageAnalysis :=
  let images := or_empty (match_all re_img html) in
  let imagesWithoutAlt := filter img_without_alt images in
  {| img_total := List.length images;
     withoutAlt := List.length imagesWithoutAlt |}.

Record SocialAnalysis := { openGraph : nat; twitter : nat }.

Definition analyzeSocialTags (html : jsstring) : SocialAnalysis :=
  let ogTags := List.length (or_empty (match_all re_og html)) in
  let twitterTags := List.length (or_empty (match_all re_twitter html)) in
  {| openGraph := ogTags; twitter := twitterTags |}.

Record LinkAnalysis := { link_total : nat; external : nat; internal : nat }.

Definition is_external (link : jsstring) : bool :=
  includes link (str "http") && negb (includes link location_hostname).

Definition is_internal (link : jsstring) : bool :=
  negb (includes link (str "http")) || includes link location_hostname.

Definition analyzeLinks (html : jsstring) : LinkAnalysis :=
  let allLinks := or_empty (match_all re_link html) in
  let externalLinks := filter is_external allLinks in
  let internalLinks := filter is_internal allLinks in
  {| link_total := List.length allLinks;
     external := List.length externalLinks;
     internal := List.length internalLinks |}.


(** *** The preview data *)

Record DummyData := {
  dummy_results : list SeoResult;
  dummy_score : SeoScore;
  dummy_loadTime : float
}.

Definition mono_class : jsstring :=
  str "font-mono text-xs text-slate-600 dark:text-slate-300".

Definition row (l : String.string) (v : String.string) (o : bool)
    (c : Category) : SeoResult :=
  {| label := str l; value := Text (str v); ok := o; category := c |}.

Definition getDummyData (hostname : jsstring) : DummyData :=
  let dummyResults :=
    [ row "HTTPS Usage" "Ya" true Basic;
      row "robots.txt Found" "Ya" true Basic;
      row "Page Load Time" "1.2s (Sangat Baik)" true Performance;
      row "Title Tag Present" "Ya" true MetaTags;
      row "Meta Description Present" "Ya" true MetaTags;
      row "Meta Keywords" "Ya" true MetaTags;
      row "Viewport Meta Tag" "Ya" true MetaTags;
      row "Canonical URL" "Ya" true MetaTags;
      row "H1 Tags" "1 tag (Ideal)" true Content;
      row "Heading Structure" "H1:1 H2:4 H3:8" true Content;
      row "Images Alt Text" "12/12 memiliki alt text" true Images;
      row "Open Graph Tags" "8 tags" true Social;
      row "Twitter Cards" "5 tags" true Social;
      row "Schema Markup" "Ya" true Technical;
      row "Internal Links" "23 links" true Links;
      row "External Links" "7 links" true Links;
      {| label := str "Page Title";
         value :=
           Span mono_class
             [hostname;
              str " - Platform SEO Terbaik untuk Analisis Website Professional"];
         ok := true;
         category := Details |};
      {| label := str "Meta Description";
         value :=
           Span mono_class
             [str "Analisis SEO lengkap untuk website Anda. Periksa meta tags, struktur heading, optimasi gambar, dan 15+ faktor SEO penting lainnya untuk meningkatkan ranking di Google."];
         ok := true;
         category := Details |} ] in
  let score := {| score := 16; total := 16; percentage := 100%float |} in
  let loadTime := 1200%float in
  {| dummy_results := dummyResults;
     dummy_score := score;
     dummy_loadTime := loadTime |}.

(** *** The report of a fetched page *)

Definition yes_no (b : bool) : ReactNode :=
  Text (str (if b then "Ya" else "Tidak")).

Definition isSome (A : Type) (m : option A) : bool :=
  match m with Some _ => true | None => false end.

Definition num (x : float) : jsstring := Number_toString x.
Definition count (n : nat) : jsstring := Number_toString (nat_to_number n).

Definition missing_node : ReactNode :=
  Span (str "italic text-slate-500") [str "missing"].

(** The array literal [newResults], from the values in scope where the
    source builds it. *)
Definition newResults (usesHttps robotsOk : bool) (pageLoadTime : float)
    (text : jsstring) : list SeoResult :=
  let titleMatch := exec re_title text in
  let descMatch := exec re_desc text in
  let keywordsMatch := exec re_keywords text in
  let viewportMatch := exec re_viewport text in
  let canonicalMatch := exec re_canonical text in
  let headingAnalysis := analyzeHeadingStructure text in
  let imageAnalysis := analyzeImages text in
  let socialAnalysis := analyzeSocialTags text in
  let linkAnalysis := analyzeLinks text in
  let hasSchemaMarkup :=
    includes text (str "application/ld+json")
    || includes text (str "itemscope") in
  [ {| label := str "HTTPS Usage"; value := yes_no usesHttps;
       ok := usesHttps; category := Basic |};
    {| label := str "robots.txt Found";
       value := Text (str (if robotsOk then "Ya"
                           else "Mungkin (tidak dapat diverifikasi)"));
       ok := robotsOk; category := Basic |};
    {| label := str "Page Load Time";
       value :=
         Text (num pageLoadTime ++ str "ms "
               ++ str (if PrimFloat.ltb pageLoadTime 3000 then "(Baik)"
                       else if PrimFloat.ltb pageLoadTime 5000
                            then "(Sedang)" else "(Lambat)"));
       ok := PrimFloat.ltb pageLoadTime 3000;
       category := Performance |};
    {| label := str "Title Tag Present"; value := yes_no (isSome titleMatch);
       ok := isSome titleMatch; category := MetaTags |};
    {| label := str "Meta Description Present";
       value := yes_no (isSome descMatch);
       ok := isSome descMatch; category := MetaTags |};
    {| label := str "Meta Keywords"; value := yes_no (isSome keywordsMatch);
       ok := isSome keywordsMatch; category := MetaTags |};
    {| label := str "Viewport Meta Tag";
       value := yes_no (isSome viewportMatch);
       ok := isSome viewportMatch; category := MetaTags |};
    {| label := str "Canonical URL"; value := yes_no (isSome canonicalMatch);
       ok := isSome canonicalMatch; category := MetaTags |};
    {| label := str "H1 Tags";
       value :=
         Text (count (h1 (counts headingAnalysis)) ++ str " tag"
               ++ str (if Nat.eqb (h1 (counts headingAnalysis)) 1
                       then " (Ideal)"
                       else if Nat.eqb (h1 (counts headingAnalysis)) 0
                            then " (Tidak ada)" else " (Terlalu banyak)"));
       ok := Nat.eqb (h1 (counts headingAnalysis)) 1;
       category := Content |};
    {| label := str "Heading Structure";
       value :=
         Text (str "H1:" ++ count (h1 (counts headingAnalysis))
               ++ str " H2:" ++ count (h2 (counts headingAnalysis))
               ++ str " H3:" ++ count (h3 (counts headingAnalysis)));
       ok := Nat.ltb 0 (h1 (counts headingAnalysis))
             && Nat.ltb 0 (h2 (counts headingAnalysis));
       category := Content |};
    {| label := str "Images Alt Text";
       value :=
         Text (if Nat.ltb 0 (img_total imageAnalysis)
               then count (img_total imageAnalysis - withoutAlt imageAnalysis)
                    ++ str "/" ++ count (img_total imageAnalysis)
                    ++ str " memiliki alt text"
               else str "Tidak ada gambar");
       ok := Nat.eqb (img_total imageAnalysis) 0
             || Nat.eqb (withoutAlt imageAnalysis) 0;
       category := Images |};
    {| label := str "Open Graph Tags";
       value :=
         Text (if Nat.ltb 0 (openGraph socialAnalysis)
               then count (openGraph socialAnalysis) ++ str " tags"
               else str "Tidak ada");
       ok := Nat.ltb 0 (openGraph socialAnalysis);
       category := Social |};
    {| label := str "Twitter Cards";
       value :=
         Text (if Nat.ltb 0 (twitter socialAnalysis)
               then count (twitter socialAnalysis) ++ str " tags"
               else str "Tidak ada");
       ok := Nat.ltb 0 (twitter socialAnalysis);
       category := Social |};
    {| label := str "Schema Markup"; value := yes_no hasSchemaMarkup;
       ok := hasSchemaMarkup; category := Technical |};
    {| label := str "Internal Links";
       value := Text (count (internal linkAnalysis) ++ str " links");
       ok := Nat.ltb 0 (internal linkAnalysis);
       category := Links |};
    {| label := str "External Links";
       value := Text (count (external linkAnalysis) ++ str " links");
       ok := true;
       category := Links |};
    {| label := str "Page Title";
       value := match titleMatch with
                | Some m => Span mono_class [group1 m]
                | None => missing_node
                end;
       ok := isSome titleMatch;
       category := Details |};
    {| label := str "Meta Description";
       value := match descMatch with
                | Some m => Span mono_class [group1 m]
                | None => missing_node
                end;
       ok := isSome descMatch;
       category := Details |} ].

(** *** The score *)

Definition not_details (result : SeoResult) : bool :=
  negb (category_eqb (category result) Details).

Definition passedChecks (newResults : list SeoResult) : nat :=
  List.length (filter (fun result => ok result && not_details result)
                 newResults).

Definition totalChecks (newResults : list SeoResult) : nat :=
  List.length (filter not_details newResults).

(** [Math.round((passedChecks / totalChecks) * 100)] *)
Definition percentage_of (passed total : nat) : float :=
  Math_round
    (PrimFloat.mul
       (PrimFloat.div (nat_to_number passed) (nat_to_number total))
       100%float).

Definition seoScoreOf (newResults : list SeoResult) : SeoScore :=
  {| score := passedChecks newResults;
     total := totalChecks newResults;
     percentage :=
       percentage_of (passedChecks newResults) (totalChecks newResults) |}.


(** *** The component state and the two handlers *)

Inductive method := GET | HEAD.
Inductive mode := cors | no_cors.

(** [Response.type] *)
Inductive ResponseType :=
| type_basic | type_cors | type_default | type_error | type_opaque
| type_opaqueredirect.

Record Response := {
  res_ok : bool;
  res_type : ResponseType;
  (** [await res.text()] *)
  res_text : result jsstring
}.

(** The network and the clock during one run of a handler: what
    [await fetch(url, {method, mode})] gives (a response, or the
    rejection), and the successive readings of [performance.now()]. *)
Record Network := {
  fetch : jsstring -> method -> mode -> result Response;
  performance_now : nat -> float
}.

Record Toast := {
  title : jsstring;
  description : jsstring;
  variant : option jsstring
}.

(** The [useState] cells of the component, and the toasts shown so
    far, oldest first. *)
Record UiState := {
  url : jsstring;
  results : option (list SeoResult);
  loading : bool;
  seoScore : option SeoScore;
  loadTime : option float;
  showPreview : bool;
  toasts : list Toast
}.

Definition setResults (v : option (list SeoResult)) (st : UiState) :=
  {| url := url st; results := v; loading := loading st;
     seoScore := seoScore st; loadTime := loadTime st;
     showPreview := showPreview st; toasts := toasts st |}.
Definition setLoading (v : bool) (st : UiState) :=
  {| url := url st; results := results st; loading := v;
     seoScore := seoScore st; loadTime := loadTime st;
     showPreview := showPreview st; toasts := toasts st |}.
Definition setSeoScore (v : option SeoScore) (st : UiState) :=
  {| url := url st; results := results st; loading := loading st;
     seoScore := v; loadTime := loadTime st;
     showPreview := showPreview st; toasts := toasts st |}.
Definition setLoadTime (v : option float) (st : UiState) :=
  {| url := url st; results := results st; loading := loading st;
     seoScore := seoScore st; loadTime := v;
     showPreview := showPreview st; toasts := toasts st |}.
Definition setShowPreview (v : bool) (st : UiState) :=
  {| url := url st; results := results st; loading := loading st;
     seoScore := seoScore st; loadTime := loadTime st;
     showPreview := v; toasts := toasts st |}.
Definition toast (t : Toast) (st : UiState) :=
  {| url := url st; results := results st; loading := loading st;
     seoScore := seoScore st; loadTime := loadTime st;
     showPreview := showPreview st; toasts := toasts st ++ [t] |}.

(** Statements that update the state and may throw: the state reached
    when an exception is thrown is kept, as the handler of a [catch]
    sees it. *)
Definition M (A : Type) : Type := UiState -> result A * UiState.

Definition ret (A : Type) (a : A) : M A := fun st => (Ok a, st).

Definition bind (A B : Type) (c : M A) (k : A -> M B) : M B :=
  fun st =>
    match c st with
    | (Ok a, st') => k a st'
    | (Throw e, st') => (Throw e, st')
    end.

Definition lift (A : Type) (r : result A) : M A := fun st => (r, st).

Definition update (f : UiState -> UiState) : M unit :=
  fun st => (Ok tt, f st).

(** [try { body } catch { handler }] *)
Definition try_ (body handler : M unit) : M unit :=
  fun st =>
    match body st with
    | (Ok a, st') => (Ok a, st')
    | (Throw _, st') => handler st'
    end.

Notation "x <- c ;; k" := (bind c (fun x => k))
  (at level 61, c at next level, right associativity).
Notation "c ;;; k" := (bind c (fun _ => k))
  (at level 61, right associativity).

Definition preview_toast : Toast :=
  {| title := [8218; 250; 174]%N ++ str " Preview Data Ditampilkan";
     description :=
       str "Ini adalah contoh hasil analisis SEO dengan data dummy untuk demonstrasi";
     variant := None |}.

Definition empty_url_toast : Toast :=
  {| title := str "Error";
     description := str "Silakan masukkan URL website";
     variant := Some (str "destructive") |}.

Definition unreachable_toast : Toast :=
  {| title := [8218; 249; 229]%N ++ str " Tidak dapat mengakses website";
     description :=
       str "Website mungkin memblokir bot, atau ada masalah CORS. Coba website lain!";
     variant := Some (str "destructive") |}.

Definition done_toast (s : SeoScore) : Toast :=
  {| title := [8218; 250; 214]%N ++ str " Analisis Selesai";
     description :=
       str "Skor SEO: " ++ num (percentage s) ++ str "% ("
       ++ count (score s) ++ str "/" ++ count (total s) ++ str ")";
     variant := None |}.

Definition is_empty (s : jsstring) : bool :=
  match s with [] => true | _ :: _ => false end.

Definition handlePreview : M unit :=
  fun st =>
    (hostname <-
       (if negb (is_empty (url st)) then
          h <- lift (extractHostname (url st)) ;;
          ret (if is_empty h then str "example.com" else h)
        else ret (str "example.com")) ;;
     let dummyData := getDummyData hostname in
     update (setResults (Some (dummy_results dummyData))) ;;;
     update (setSeoScore (Some (dummy_score dummyData))) ;;;
     update (setLoadTime (Some (dummy_loadTime dummyData))) ;;;
     update (setShowPreview true) ;;;
     update (toast preview_toast)) st.

(** The URL the page is fetched from. *)
Definition fetch_url (url : jsstring) : jsstring :=
  let inputUrl := trim url in
  if negb (test re_scheme inputUrl) then str "https://" ++ inputUrl
  else inputUrl.

Section WithNetwork.
Variable net : Network.

(** The body of the [try] block of [handleCheck]. *)
Definition check_body (inputUrl : jsstring) (startTime : float)
  : M unit :=
  res <- lift (fetch net inputUrl GET cors) ;;
  let endTime := performance_now net 1 in
  let pageLoadTime := Math_round (PrimFloat.sub endTime startTime) in
  update (setLoadTime (Some pageLoadTime)) ;;;
  text <- lift (res_text res) ;;
  let usesHttps := startsWith inputUrl (str "https://") in
  let robotsOk :=
    let robotsUrl :=
      replace re_trailing_slashes (str "") inputUrl
      ++ str "/robots.txt" in
    match fetch net robotsUrl HEAD no_cors with
    | Ok robotsRes =>
        res_ok robotsRes
        || match res_type robotsRes with
           | type_opaque => true
           | _ => false
           end
    | Throw _ => false
    end in
  let newResults := newResults usesHttps robotsOk pageLoadTime text in
  update (setResults (Some newResults)) ;;;
  update (setSeoScore (Some (seoScoreOf newResults))) ;;;
  update (toast (done_toast (seoScoreOf newResults))).

Definition handleCheck : M unit :=
  fun st =>
    (update (setResults None) ;;;
     update (setSeoScore None) ;;;
     update (setLoadTime None) ;;;
     update (setShowPreview false) ;;;
     if is_empty (trim (url st)) then
       update (toast empty_url_toast)
     else
       let inputUrl := fetch_url (url st) in
       update (setLoading true) ;;;
       let startTime := performance_now net 0 in
       try_ (check_body inputUrl startTime)
            (update (toast unreachable_toast)) ;;;
       update (setLoading false)) st.
End WithNetwork.

(** *** What the page renders from [results] *)

(** The object built by the [reduce]: its keys in insertion order, which
    is the order [Object.entries] lists them in. *)
Fixpoint push_group (key : jsstring) (result : SeoResult)
    (acc : list (jsstring * list SeoResult))
  : list (jsstring * list SeoResult) :=
  match acc with
  | [] => [(key, [result])]
  | (k, rows) :: acc' =>
      if jsstring_eqb k key then (k, rows ++ [result]) :: acc'
      else (k, rows) :: push_group key result acc'
  end.

Definition groupedResults (results : list SeoResult)
  : list (jsstring * list SeoResult) :=
  fold_left
    (fun acc result =>
       if is_empty (category_name (category result))
          || category_eqb (category result) Details
       then acc
       else push_group (category_name (category result)) result acc)
    results [].

Definition detailResults (results : list SeoResult) : list SeoResult :=
  filter (fun result => category_eqb (category result) Details) results.

(** *** What the page shows beside the rows *)

(** [category === k && title]: the title, or nothing. *)
Definition when (b : bool) (s : jsstring) : jsstring := if b then s else [].

(** The heading of the card of a group: the text children of its
    [CardTitle], after the icon. *)
Definition card_title (key : jsstring) : jsstring :=
  when (jsstring_eqb key (str "Basic")) (str "Basic SEO")
  ++ when (jsstring_eqb key (str "Performance")) (str "Performance")
  ++ when (jsstring_eqb key (str "Meta Tags")) (str "Meta Tags")
  ++ when (jsstring_eqb key (str "Content")) (str "Content Structure")
  ++ when (jsstring_eqb key (str "Images")) (str "Images")
  ++ when (jsstring_eqb key (str "Social")) (str "Social Media")
  ++ when (jsstring_eqb key (str "Technical")) (str "Technical SEO")
  ++ when (jsstring_eqb key (str "Links")) (str "Links").

(** The badge beside the score: its variant and its text. *)
Definition badge_variant (seoScore : SeoScore) : jsstring :=
  if PrimFloat.leb 80 (percentage seoScore) then str "default"
  else if PrimFloat.leb 60 (percentage seoScore) then str "secondary"
  else str "destructive".

Definition badge_text (seoScore : SeoScore) : jsstring :=
  if PrimFloat.leb 80 (percentage seoScore) then str "Excellent"
  else if PrimFloat.leb 60 (percentage seoScore) then str "Good"
  else str "Needs Work".


End WithBrowser.

End SeoCheckup.
Import SeoCheckup.

(** ** The words of the specification, for comparison with the code *)

Module Spec.

(** A row counts towards the score when its category is not Details. *)
Definition scorable (r : SeoResult) : bool :=
  match category r with
  | Details => false
  | _ => true
  end.

(** The number of rows of a list that satisfy a test. *)
Fixpoint count_rows (f : SeoResult -> bool) (rs : list SeoResult) : nat :=
  match rs with
  | [] => 0
  | r :: rs' => (if f r then 1 else 0) + count_rows f rs'
  end.

(** [round(a / b)] on natural numbers, a half rounded up. *)
Definition round_div (a b : nat) : nat := (2 * a + b) / (2 * b).

(** The pairs (passed, total) with [1 <= total <= n] and
    [passed <= total]. *)
Definition score_pairs (n : nat) : list (nat * nat) :=
  flat_map (fun t => map (fun p => (p, t)) (seq 0 (S t))) (seq 1 n).

(** A conjunction of equations between numbers, one per pair. *)
Fixpoint all_equal (l : list (float * float)) : Prop :=
  match l with
  | [] => True
  | (a, b) :: l' => a = b /\ all_equal l'
  end.

(** The fixed order of the categories. *)
Definition category_order : list Category :=
  [Basic; Performance; MetaTags; Content; Images; Social; Technical; Links;
   Details].

Definition rank (c : Category) : nat :=
  match c with
  | Basic => 0 | Performance => 1 | MetaTags => 2 | Content => 3
  | Images => 4 | Social => 5 | Technical => 6 | Links => 7 | Details => 8
  end.

(** The categories of a list of rows as the reader meets them: each run
    of rows of one category counts once. *)
Fixpoint blocks (cs : list Category) : list Category :=
  match cs with
  | [] => []
  | c :: cs' =>
      match cs' with
      | [] => [c]
      | d :: _ => if Nat.eqb (rank c) (rank d) then blocks cs'
                  else c :: blocks cs'
      end
  end.

(** The keys of the grouped rows, in order of first appearance. *)
Definition key_step (ks : list jsstring) (c : Category) : list jsstring :=
  if category_eqb c Details then ks
  else if existsb (fun k => jsstring_eqb k (category_name c)) ks then ks
  else ks ++ [category_name c].

(** Letter case: the lower-case form of an ASCII letter. *)
Definition to_lower (x : N) : N :=
  if ((65 <=? x) && (x <=? 90))%N then (x + 32)%N else x.

(** Two texts that differ in the case of ASCII letters only. *)
Definition ci_equal (a b : jsstring) : Prop :=
  map to_lower a = map to_lower b.

(** [s] starts with the lower-case word [w], in any letter case. *)
Definition ci_prefix (w s : jsstring) : bool :=
  startsWith (map to_lower s) w.

(** [s] carries a http:// or https:// prefix, in any letter case. *)
Definition has_scheme (s : jsstring) : bool :=
  ci_prefix (str "http://") s || ci_prefix (str "https://") s.

(** [needle] occurs in [s]. *)
Definition occurs (needle s : jsstring) : Prop :=
  exists pre post, s = pre ++ needle ++ post.

(** An image tag is missing its alt text when no [alt=] occurs in it, or
    an empty value does, in double or in single quotes. *)
Definition missing_alt (img : jsstring) : Prop :=
  ~ occurs (str "alt=") img
  \/ occurs (str "alt=" ++ [dq; dq]) img
  \/ occurs (str "alt=''") img.

(** The [<img ...>] tags of a text, as the pattern of the source finds
    them. *)
Definition img_tags (html : jsstring) : list jsstring :=
  or_empty (match_all re_img html).

(** The regular expressions the detectors run on the HTML text. *)
Definition html_regexes : list regex :=
  [re_title; re_desc; re_keywords; re_viewport; re_canonical; re_heading;
   re_img; re_og; re_twitter; re_link].

Definition is_quote (q : N) : Prop := q = dq \/ q = ch "'".

(** A description meta tag with the name attribute first and the content
    attribute next, nothing around the equals signs: [ws1] and [ws2] are
    the white space before the two attributes, [q1] to [q4] the quotes and
    [v] the content. *)
Definition description_tag (ws1 : jsstring) (q1 q2 : N) (ws2 : jsstring)
    (q3 : N) (v : jsstring) (q4 : N) : jsstring :=
  str "<meta" ++ ws1 ++ str "name=" ++ [q1] ++ str "description" ++ [q2]
  ++ ws2 ++ str "content=" ++ [q3] ++ v ++ [q4].

(** Two results of the matcher that differ in letter case only. *)
Definition res_sim (r r' : option (list jsstring * jsstring)) : Prop :=
  match r, r' with
  | Some (ms, t), Some (ms', t') => Forall2 ci_equal ms ms' /\ ci_equal t t'
  | None, None => True
  | _, _ => False
  end.

Definition match_sim (r r' : option Match) : Prop :=
  match r, r' with
  | Some m, Some m' =>
      index m = index m' /\ ci_equal (whole m) (whole m')
      /\ Forall2 ci_equal (groups m) (groups m')
  | None, None => True
  | _, _ => False
  end.

(** The row of a report with a given label. *)
Definition row_of (l : String.string) (rs : list SeoResult)
  : option SeoResult :=
  find (fun r => jsstring_eqb (label r) (str l)) rs.

(** *** Words for the properties of the rest of the page *)

(** [acc[key]] on the object the [reduce] builds. *)
Fixpoint group_of (key : jsstring) (acc : list (jsstring * list SeoResult))
  : option (list SeoResult) :=
  match acc with
  | [] => None
  | (k, rows) :: acc' =>
      if jsstring_eqb k key then Some rows else group_of key acc'
  end.

(** The rows of a list that the page shows under the card [key]. *)
Definition rows_under (key : jsstring) (rs : list SeoResult)
  : list SeoResult :=
  filter (fun r => scorable r && jsstring_eqb (category_name (category r)) key)
    rs.

(** The number of headings the analyzer has counted, all levels
    together. *)
Definition heading_total (c : HeadingCounts) : nat :=
  h1 c + h2 c + h3 c + h4 c + h5 c + h6 c.

(** A text made of white space only (the empty text is one). *)
Definition blank (s : jsstring) : Prop := Forall (fun x => is_space x = true) s.

(** The robots.txt response as the page reads it. *)
Definition robots_found (r : result Response) : bool :=
  match r with
  | Ok res =>
      res_ok res
      || match res_type res with type_opaque => true | _ => false end
  | Throw _ => false
  end.

(** The checks that read the page through a pattern with flag [i] only. *)
Definition case_blind_checks : list String.string :=
  ["Title Tag Present"; "Meta Description Present"; "Meta Keywords";
   "Viewport Meta Tag"; "Canonical URL"; "Open Graph Tags"; "Twitter Cards"].

(** A text that has no [<] in it. *)
Definition no_markup (s : jsstring) : Prop := Forall (fun x => x <> ch "<") s.

(** Attribute text inside a tag: anything but [>]. *)
Definition inside_tag (a : jsstring) : Prop := Forall (fun x => x <> ch ">") a.

(** An attribute value: anything but a quote. *)
Definition unquoted (v : jsstring) : Prop :=
  Forall (fun x => x <> dq /\ x <> ch "'") v.

(** A meta tag whose attribute [attr] has a value that starts with
    [prefix]; [a] and [b] are whatever else the tag holds. *)
Definition prefixed_meta_tag (attr prefix : String.string) (a : jsstring)
    (q1 : N) (v : jsstring) (q2 : N) (b : jsstring) : jsstring :=
  str "<meta" ++ a ++ str attr ++ str "=" ++ [q1] ++ str prefix ++ v ++ [q2]
  ++ b ++ str ">".

(** A canonical link tag. *)
Definition canonical_tag (a : jsstring) (q1 q2 : N) (b : jsstring)
  : jsstring :=
  str "<link" ++ a ++ str "rel=" ++ [q1] ++ str "canonical" ++ [q2] ++ b
  ++ str ">".

(** An anchor with a quoted href. *)
Definition anchor_tag (a : jsstring) (q1 : N) (v : jsstring) (q2 : N)
    (b : jsstring) : jsstring :=
  str "<a" ++ a ++ str "href=" ++ [q1] ++ v ++ [q2] ++ b ++ str ">".

(** A title element without attributes. *)
Definition title_element (v : jsstring) : jsstring :=
  str "<title>" ++ v ++ str "</title>".

(** A viewport meta tag, up to the closing quote of its name. *)
Definition viewport_tag (ws : jsstring) (q1 q2 : N) : jsstring :=
  str "<meta" ++ ws ++ str "name=" ++ [q1] ++ str "viewport" ++ [q2].

(** A keywords meta tag, written like [description_tag]. *)
Definition keywords_tag (ws1 : jsstring) (q1 q2 : N) (ws2 : jsstring)
    (q3 : N) (v : jsstring) (q4 : N) : jsstring :=
  str "<meta" ++ ws1 ++ str "name=" ++ [q1] ++ str "keywords" ++ [q2]
  ++ ws2 ++ str "content=" ++ [q3] ++ v ++ [q4].

(** An image tag. *)
Definition img_tag (a : jsstring) : jsstring := str "<img" ++ a ++ str ">".

(** White space, at least one code unit of it. *)
Definition spaces (ws : jsstring) : Prop := ws <> [] /\ blank ws.

(** A text on one line. *)
Definition one_line (v : jsstring) : Prop :=
  Forall (fun x => is_line_terminator x = false) v.

(** The level digit of a matched heading: its third code unit. *)
Definition level_of (heading : jsstring) : N := nth 2 heading 0%N.

(** The counter of the level whose digit is [d]. *)
Definition count_at (d : N) (c : HeadingCounts) : nat :=
  if (d =? ch "1")%N then h1 c
  else if (d =? ch "2")%N then h2 c
  else if (d =? ch "3")%N then h3 c
  else if (d =? ch "4")%N then h4 c
  else if (d =? ch "5")%N then h5 c
  else if (d =? ch "6")%N then h6 c
  else 0.

(** A matched heading whose tag name is in lower case. *)
Definition lower_heading (m : jsstring) : Prop :=
  exists d tl, m = ch "<" :: ch "h" :: d :: tl /\ (ch "1" <= d <= ch "6")%N.


(** *** Image tags and the alt attribute in the words of the specification *)

(** The prefix of a text through its first [>]. *)
Fixpoint through_gt (s : jsstring) : option jsstring :=
  match s with
  | [] => None
  | x :: s' =>
      if (x =? ch ">")%N then Some [x]
      else option_map (cons x) (through_gt s')
  end.

(** An img tag at the head of a text: [<img] in any letter case, then
    everything through the next [>]. *)
Definition img_tag_at (s : jsstring) : option jsstring :=
  if ci_prefix (str "<img") s
  then option_map (app (firstn 4 s)) (through_gt (skipn 4 s))
  else None.

(** The img tags of a text from left to right, each one looked for after
    the end of the one before ([skip] code units of the last tag are still to
    pass). *)
Fixpoint img_tags_from (skip : nat) (s : jsstring) : list jsstring :=
  match skip with
  | S n =>
      match s with
      | [] => []
      | _ :: s' => img_tags_from n s'
      end
  | O =>
      match s with
      | [] => []
      | _ :: s' =>
          match img_tag_at s with
          | Some t => t :: img_tags_from (pred (List.length t)) s'
          | None => img_tags_from 0 s'
          end
      end
  end.

Definition img_tags_of (html : jsstring) : list jsstring :=
  img_tags_from 0 html.

(** The alt attribute of a tag as HTML reads it: the name [alt] in any
    letter case after white space, the equals sign, and a value between two
    quotes of one kind. *)
Fixpoint quoted_value (q : N) (s : jsstring) : option jsstring :=
  match s with
  | [] => None
  | x :: s' =>
      if (x =? q)%N then Some [] else option_map (cons x) (quoted_value q s')
  end.

Definition alt_value_at (s : jsstring) : option jsstring :=
  if ci_prefix (str "alt=") s then
    match skipn 4 s with
    | q :: r =>
        if ((q =? dq) || (q =? ch "'"))%N then quoted_value q r else None
    | [] => None
    end
  else None.

Fixpoint alt_attribute (tag : jsstring) : option jsstring :=
  match tag with
  | [] => None
  | x :: t =>
      if is_space x then
        match alt_value_at t with
        | Some v => Some v
        | None => alt_attribute t
        end
      else alt_attribute t
  end.

(** The host name the preview shows for a typed URL, given what the URL
    constructor makes of it. *)
Definition preview_host (url : jsstring) (parsed : result jsstring)
  : jsstring :=
  match url, parsed with
  | _ :: _, Ok (x :: host) => x :: host
  | _, _ => str "example.com"
  end.

End Spec.
Import Spec.

(** ** A browser, a network and a state to run the code on *)

Module Fixture.

Definition decimal (n : N) : jsstring :=
  str (DecimalString.NilEmpty.string_of_uint (N.to_uint n)).

(** Integers print in decimal; this browser is not asked for more. *)
Definition print_number (x : float) : jsstring :=
  match Prim2SF x with
  | S754_zero _ => str "0"
  | S754_infinity s => str (if s then "-Infinity" else "Infinity")
  | S754_nan => str "NaN"
  | S754_finite s m e =>
      (if s then str "-" else [])
      ++ decimal (Z.to_N (if (0 <=? e)%Z then Zpos m * 2 ^ e
                          else Zpos m / 2 ^ (- e)))
  end.

(** The host of a URL without port, user or path tricks: what lies
    between [//] and the next [/]; a URL with a space does not parse. *)
Fixpoint until_slash (s : jsstring) : jsstring :=
  match s with
  | [] => []
  | x :: s' => if (x =? ch "/")%N then [] else x :: until_slash s'
  end.

Definition parse_host (u : jsstring) : result jsstring :=
  if existsb (N.eqb 32) u then Throw (str "TypeError: Invalid URL")
  else if startsWith u (str "http://") then Ok (until_slash (skipn 7 u))
  else if startsWith u (str "https://") then Ok (until_slash (skipn 8 u))
  else Throw (str "TypeError: Invalid URL").

Definition browser : Browser :=
  {| location_hostname := str "localhost";
     URL_hostname := parse_host;
     Number_toString := print_number |}.

(** A network on which every request fails. *)
Definition offline : Network :=
  {| fetch := fun _ _ _ => Throw (str "TypeError: Failed to fetch");
     performance_now := fun n => nat_to_number (100 * n) |}.

(** The state after an earlier preview, with a new URL typed in. *)
Definition after_preview : UiState :=
  {| url := str " example.com ";
     results := Some (dummy_results (getDummyData (str "example.com")));
     loading := false;
     seoScore := Some (dummy_score (getDummyData (str "example.com")));
     loadTime := Some (dummy_loadTime (getDummyData (str "example.com")));
     showPreview := true;
     toasts := [preview_toast] |}.


(** A small page. *)
Definition page : jsstring :=
  str "<html><head><title>T</title></head><body><h1>H</h1></body></html>".

(** A network that serves [page] for every GET and answers every HEAD with
    an opaque response. *)
Definition online : Network :=
  {| fetch := fun _ m _ =>
       match m with
       | GET => Ok {| res_ok := true; res_type := type_cors;
                      res_text := Ok page |}
       | HEAD => Ok {| res_ok := false; res_type := type_opaque;
                       res_text := Ok (str "") |}
       end;
     performance_now := fun n => nat_to_number (500 * n) |}.

(** A network whose responses arrive but whose bodies cannot be read. *)
Definition truncated : Network :=
  {| fetch := fun _ _ _ =>
       Ok {| res_ok := true; res_type := type_cors;
             res_text := Throw (str "TypeError: network error") |};
     performance_now := fun n => nat_to_number (500 * n) |}.

(** The state of a fresh page with [u] typed in. *)
Definition typed (u : String.string) : UiState :=
  {| url := str u; results := None; loading := false; seoScore := None;
     loadTime := None; showPreview := false; toasts := [] |}.


(** A browser showing a local file: its location has no host name. *)
Definition local_file : Browser :=
  {| location_hostname := str "";
     URL_hostname := parse_host;
     Number_toString := print_number |}.

End Fixture.

(** ** Letter case and literal runs of a pattern *)

(** Case analysis on the comparisons of code units in the goal, pruning
    the impossible cases as they appear. *)
Ltac N_cases :=
  repeat (match goal with
          | |- context [N.leb ?a ?b] => destruct (N.leb_spec a b)
          | |- context [N.eqb ?a ?b] => destruct (N.eqb_spec a b)
          end; try lia);
  simpl in *; try reflexivity; try lia.

Lemma canon_to_lower (x y : N) : canon x = canon y <-> to_lower x = to_lower y.
Proof.
  unfold canon, to_lower. split; intros H; revert H; N_cases.
Qed.

Lemma canon_lower_eqb (c x : N) :
  to_lower c = c -> (canon c =? canon x)%N = (to_lower x =? c)%N.
Proof.
  unfold canon, to_lower. N_cases.
Qed.

Lemma lit_str (w : String.string) :
  lit w = map (fun c => One (Lit c)) (str w).
Proof. unfold lit, str. now rewrite map_map. Qed.

Lemma startsWith_app (s a b : jsstring) :
  startsWith s (a ++ b)
  = startsWith s a && startsWith (skipn (List.length a) s) b.
Proof.
  revert s. induction a as [|y a IH]; intros s; simpl; [reflexivity|].
  destruct s as [|x s]; simpl; [reflexivity|].
  rewrite IH. now destruct (x =? y)%N.
Qed.

Lemma startsWith_self (w s : jsstring) : startsWith (w ++ s) w = true.
Proof.
  induction w as [|y w IH]; simpl; [reflexivity|].
  now rewrite N.eqb_refl.
Qed.

Lemma startsWith_iff (s w : jsstring) :
  startsWith s w = true <-> exists post, s = w ++ post.
Proof.
  revert s. induction w as [|y w IH]; intros s; simpl.
  - split; [intros _; now exists s | reflexivity].
  - destruct s as [|x s].
    + split; [discriminate | intros [post H]; discriminate H].
    + rewrite andb_true_iff, N.eqb_eq, IH. split.
      * intros [-> [post ->]]. now exists post.
      * intros [post H]. injection H as -> ->. split; [reflexivity|].
        now exists post.
Qed.

(** A run of lower-case literals under flag [i] is a prefix test on the
    lower-cased input. *)
Lemma match_here_lits (w : jsstring) (p : list atom) (s : jsstring) :
  Forall (fun c => to_lower c = c) w ->
  match_here true (map (fun c => One (Lit c)) w ++ p) s
  = if startsWith (map to_lower s) w
    then match_here true p (skipn (List.length w) s) else None.
Proof.
  intros Hw. revert s.
  induction Hw as [|c w Hc Hw IH]; intros s; simpl; [reflexivity|].
  destruct s as [|x s]; simpl; [reflexivity|].
  rewrite (canon_lower_eqb _ Hc).
  destruct (to_lower x =? c)%N; simpl; [apply IH | reflexivity].
Qed.

Lemma skipn_map (A B : Type) (f : A -> B) (n : nat) (l : list A) :
  skipn n (map f l) = map f (skipn n l).
Proof.
  revert l. induction n as [|n IH]; intros [|a l]; simpl; auto.
Qed.

Lemma isSome_match_at (re : regex) (i : nat) (s : jsstring) :
  isSome (match_at re i s) = isSome (match_here (ignoreCase re) (body re) s).
Proof.
  unfold match_at. now destruct (match_here _ _ s) as [[ms rest]|].
Qed.

Lemma test_isSome (re : regex) (s : jsstring) :
  test re s = isSome (exec re s).
Proof. reflexivity. Qed.

(** [s?] followed by a lower-case literal run. *)
Lemma match_here_opt_lits (c : N) (w s : jsstring) :
  to_lower c = c ->
  Forall (fun c => to_lower c = c) w ->
  isSome (match_here true (Opt (Lit c) :: map (fun c => One (Lit c)) w ++ []) s)
  = startsWith (map to_lower s) ([c] ++ w) || startsWith (map to_lower s) w.
Proof.
  intros Hc Hw. cbn [match_here].
  rewrite (match_here_lits [] s Hw).
  destruct s as [|x s].
  - cbn [one map]. rewrite startsWith_app. cbn [startsWith andb orb].
    now destruct (startsWith [] w).
  - cbn [one cset_mem item_mem map]. rewrite (canon_lower_eqb _ Hc).
    rewrite (match_here_lits [] s Hw).
    rewrite (startsWith_app (to_lower x :: map to_lower s) [c] w).
    cbn [startsWith List.length skipn]. rewrite andb_true_r.
    destruct (to_lower x =? c)%N; cbn [andb orb].
    + destruct (startsWith (map to_lower s) w); [reflexivity|].
      now destruct (startsWith (to_lower x :: map to_lower s) w).
    + now destruct (startsWith (to_lower x :: map to_lower s) w).
Qed.

(** The scheme test of the source is the prefix test of the
    specification. *)
Lemma test_re_scheme (s : jsstring) : test re_scheme s = has_scheme s.
Proof.
  rewrite test_isSome. unfold exec. cbn [anchored re_scheme].
  rewrite isSome_match_at.
  change (match_here _ _ s)
    with (match_here true
            (map (fun c => One (Lit c)) (str "http")
             ++ Opt (Lit (ch "s"))
                :: map (fun c => One (Lit c)) (str "://") ++ []) s).
  rewrite match_here_lits by (repeat constructor).
  unfold has_scheme, ci_prefix.
  change (str "http://") with (str "http" ++ str "://").
  change (str "https://") with (str "http" ++ ([ch "s"] ++ str "://")).
  rewrite !(startsWith_app _ (str "http")), skipn_map.
  destruct (startsWith (map to_lower s) (str "http")); [|reflexivity].
  rewrite match_here_opt_lits by (first [reflexivity | repeat constructor]).
  cbn [andb]. apply orb_comm.
Qed.

(** ** The score *)

Lemma not_details_scorable (r : SeoResult) : not_details r = scorable r.
Proof.
  unfold not_details, scorable. destruct (category r); reflexivity.
Qed.

Lemma totalChecks_count (rs : list SeoResult) :
  totalChecks rs = count_rows scorable rs.
Proof.
  unfold totalChecks.
  induction rs as [|r rs IH]; simpl; [reflexivity|].
  rewrite not_details_scorable. destruct (scorable r); simpl; now rewrite IH.
Qed.

Lemma passedChecks_count (rs : list SeoResult) :
  passedChecks rs = count_rows (fun r => scorable r && ok r) rs.
Proof.
  unfold passedChecks.
  induction rs as [|r rs IH]; simpl; [reflexivity|].
  rewrite not_details_scorable.
  destruct (ok r), (scorable r); simpl; now rewrite IH.
Qed.

Lemma passedChecks_le_totalChecks (rs : list SeoResult) :
  passedChecks rs <= totalChecks rs.
Proof.
  rewrite passedChecks_count, totalChecks_count.
  induction rs as [|r rs IH]; simpl; [lia|].
  destruct (scorable r), (ok r); simpl; lia.
Qed.

Lemma all_equal_In (l : list (float * float)) (a b : float) :
  all_equal l -> In (a, b) l -> a = b.
Proof.
  induction l as [|[x y] l IH]; simpl; [tauto|].
  intros [Hxy Hl] [Heq|Hin]; [congruence | now apply IH].
Qed.

(** Up to 39 scorable rows the double arithmetic of the source gives the
    rounded quotient exactly. *)
Lemma percentage_table :
  all_equal
    (map (fun pt => (percentage_of (fst pt) (snd pt),
                     nat_to_number (round_div (100 * fst pt) (snd pt))))
       (score_pairs 39)).
Proof.
  vm_compute. repeat split.
Qed.

Lemma percentage_of_exact (p t : nat) :
  1 <= t <= 39 -> p <= t ->
  percentage_of p t = nat_to_number (round_div (100 * p) t).
Proof.
  intros Ht Hp.
  apply (all_equal_In _ _ _ percentage_table).
  apply (in_map (fun pt => (percentage_of (fst pt) (snd pt),
                            nat_to_number (round_div (100 * fst pt) (snd pt))))
           _ (p, t)).
  unfold score_pairs. apply in_flat_map. exists t. split.
  - apply in_seq. lia.
  - apply (in_map (fun q => (q, t))), in_seq. lia.
Qed.

(** With 40 scorable rows the double product can fall just under a half:
    23 of 40 is 57.5 per cent, and the source computes 57. *)
Lemma percentage_of_23_40 :
  percentage_of 23 40 = 57%float /\ round_div (100 * 23) 40 = 58.
Proof. split; vm_compute; reflexivity. Qed.

Lemma nan_is_not_zero : PrimFloat.nan <> 0%float.
Proof.
  intro H.
  assert (E : PrimFloat.is_nan PrimFloat.nan = PrimFloat.is_nan 0%float)
    by (rewrite H; reflexivity).
  vm_compute in E. discriminate E.
Qed.

(** C1, as stated, fails: on a list without a scorable row (here the empty
    list) the total is 0 and the percentage is NaN, not 0; the source
    divides without a guard. *)
Lemma C1_no_scorable_row_gives_nan :
  total (seoScoreOf []) = 0
  /\ percentage (seoScoreOf []) = PrimFloat.nan
  /\ percentage (seoScoreOf []) <> 0%float.
Proof.
  split; [reflexivity|]. split; [vm_compute; reflexivity|].
  change (percentage (seoScoreOf [])) with (percentage_of 0 0).
  replace (percentage_of 0 0) with PrimFloat.nan by (vm_compute; reflexivity).
  exact nan_is_not_zero.
Qed.

(** C1, amended: for every result list the score holds total = the number
    of rows whose category is not Details and passed = the number of those
    rows that are ok; when total is between 1 and 39 (an assembled report
    has 16) the percentage is round(100 * passed / total), a half rounded
    up; when total is 0 the percentage is NaN. *)
Theorem C1_score_of_results (rs : list SeoResult) :
  total (seoScoreOf rs) = count_rows scorable rs
  /\ score (seoScoreOf rs) = count_rows (fun r => scorable r && ok r) rs
  /\ (1 <= total (seoScoreOf rs) <= 39 ->
      percentage (seoScoreOf rs)
      = nat_to_number
          (round_div (100 * score (seoScoreOf rs)) (total (seoScoreOf rs))))
  /\ (total (seoScoreOf rs) = 0 -> percentage (seoScoreOf rs) = PrimFloat.nan).
Proof.
  simpl. split; [apply totalChecks_count|].
  split; [apply passedChecks_count|].
  pose proof (passedChecks_le_totalChecks rs) as Hle.
  split.
  - intros Ht. now apply percentage_of_exact.
  - intros Ht. rewrite Ht in *.
    assert (Hp : passedChecks rs = 0) by lia.
    rewrite Hp. vm_compute. reflexivity.
Qed.

Lemma C1_score_of_results_witness :
  percentage
    (seoScoreOf (dummy_results (getDummyData (str "example.com"))))
  = 100%float.
Proof.
  rewrite (proj1 (proj2 (proj2
             (C1_score_of_results
                (dummy_results (getDummyData (str "example.com"))))))).
  - vm_compute. reflexivity.
  - vm_compute. lia.
Defined.

(** ** The preview data *)

(** C6: for every hostname hint the preview report has 16 rows outside
    Details, every row is ok, the score is 16 of 16 and 100 per cent (which
    is also what the scorer computes from the rows), the load time is 1200
    ms, and the hint appears in the Page Title row of Details only: the
    scorable rows are the same for any two hints.  [getDummyData] is a
    function of the hint alone; it has no access to the network. *)
Theorem C6_preview_report (hostname : jsstring) :
  let d := getDummyData hostname in
  count_rows scorable (dummy_results d) = 16
  /\ forallb ok (dummy_results d) = true
  /\ dummy_score d = {| score := 16; total := 16; percentage := 100%float |}
  /\ seoScoreOf (dummy_results d) = dummy_score d
  /\ dummy_loadTime d = 1200%float
  /\ (forall hint : jsstring,
        filter scorable (dummy_results (getDummyData hint))
        = filter scorable (dummy_results d))
  /\ option_map value (row_of "Page Title" (dummy_results d))
     = Some (Span mono_class
               [hostname;
                str " - Platform SEO Terbaik untuk Analisis Website Professional"]).
Proof.
  cbv zeta.
  do 5 (split; [vm_compute; reflexivity|]).
  split; [intros hint; vm_compute; reflexivity|].
  vm_compute. reflexivity.
Qed.

(** ** The order of the rows *)

Lemma category_name_not_empty (c : Category) :
  is_empty (category_name c) = false.
Proof. destruct c; reflexivity. Qed.

Lemma push_group_keys (key : jsstring) (r : SeoResult)
    (acc : list (jsstring * list SeoResult)) :
  map fst (push_group key r acc)
  = if existsb (fun k => jsstring_eqb k key) (map fst acc) then map fst acc
    else map fst acc ++ [key].
Proof.
  induction acc as [|[k rows] acc IH]; simpl; [reflexivity|].
  destruct (jsstring_eqb k key); simpl; [reflexivity|].
  rewrite IH. now destruct (existsb _ (map fst acc)).
Qed.

Lemma groupedResults_keys_from (rs : list SeoResult)
    (acc : list (jsstring * list SeoResult)) :
  map fst
    (fold_left
       (fun acc result =>
          if is_empty (category_name (category result))
             || category_eqb (category result) Details
          then acc
          else push_group (category_name (category result)) result acc)
       rs acc)
  = fold_left key_step (map category rs) (map fst acc).
Proof.
  revert acc. induction rs as [|r rs IH]; intros acc; simpl; [reflexivity|].
  rewrite IH. f_equal. unfold key_step.
  rewrite category_name_not_empty. simpl.
  destruct (category_eqb (category r) Details); [reflexivity|].
  apply push_group_keys.
Qed.

Lemma groupedResults_keys (rs : list SeoResult) :
  map fst (groupedResults rs) = fold_left key_step (map category rs) [].
Proof. apply (groupedResults_keys_from rs []). Qed.

Section Report.
Context {browser : Browser}.

Lemma newResults_categories (usesHttps robotsOk : bool)
    (pageLoadTime : float) (text : jsstring) :
  map category (newResults usesHttps robotsOk pageLoadTime text)
  = [Basic; Basic; Performance; MetaTags; MetaTags; MetaTags; MetaTags;
     MetaTags; Content; Content; Images; Social; Social; Technical; Links;
     Links; Details; Details].
Proof. reflexivity. Qed.

(** C9: the rows of every assembled report, and of the preview report,
    come in the category order Basic, Performance, Meta Tags, Content,
    Images, Social, Technical, Links, Details; the page groups them under
    the first eight names in that order and shows the Details rows
    apart. *)
Theorem C9_category_order (usesHttps robotsOk : bool)
    (pageLoadTime : float) (text hostname : jsstring) :
  let rows := newResults usesHttps robotsOk pageLoadTime text in
  blocks (map category rows) = category_order
  /\ map fst (groupedResults rows)
     = map category_name (removelast category_order)
  /\ map category (detailResults rows) = [Details; Details]
  /\ blocks (map category (dummy_results (getDummyData hostname)))
     = category_order.
Proof.
  cbv zeta. rewrite groupedResults_keys.
  unfold detailResults. rewrite newResults_categories.
  split; [reflexivity|]. split; [vm_compute; reflexivity|].
  split; reflexivity.
Qed.

(** ** Links *)

Lemma is_internal_complement (link : jsstring) :
  is_internal link = negb (is_external link).
Proof.
  unfold is_internal, is_external.
  now destruct (includes link (str "http")),
               (includes link location_hostname).
Qed.

Lemma filter_partition_length (A : Type) (f : A -> bool) (l : list A) :
  List.length (filter f l) + List.length (filter (fun a => negb (f a)) l)
  = List.length l.
Proof.
  induction l as [|a l IH]; simpl; [reflexivity|].
  destruct (f a); simpl; lia.
Qed.

(** C10: the two filter predicates of the link analyzer are complements
    of each other, so for every HTML text each matched anchor is counted as
    internal or as external and never as both: internal + external =
    total. *)
Theorem C10_links_partition (html : jsstring) :
  (forall link, is_internal link = negb (is_external link))
  /\ internal (analyzeLinks html) + external (analyzeLinks html)
     = link_total (analyzeLinks html).
Proof.
  split; [exact is_internal_complement|].
  unfold analyzeLinks. simpl.
  rewrite (filter_ext _ _ is_internal_complement).
  rewrite Nat.add_comm. apply filter_partition_length.
Qed.

(** ** The host name *)

(** C8: [extractHostname] never throws.  It returns the host of the URL
    (the input itself when it has a http:// or https:// prefix in any
    letter case, the input after http:// otherwise) when the URL
    constructor accepts it, and the empty string when the constructor
    throws. *)
Theorem C8_extractHostname_total (url : jsstring) :
  extractHostname url
  = Ok match URL_hostname
               (if has_scheme url then url else str "http://" ++ url) with
       | Ok host => host
       | Throw _ => str ""
       end.
Proof.
  unfold extractHostname, try_catch. rewrite test_re_scheme.
  destruct (has_scheme url); cbn [negb];
    now destruct (URL_hostname _).
Qed.
End Report.

(** ** The fetched URL and a failed fetch *)


Lemma has_scheme_https (s : jsstring) : has_scheme (str "https://" ++ s) = true.
Proof.
  unfold has_scheme, ci_prefix. rewrite map_app.
  change (map to_lower (str "https://")) with (str "https://").
  rewrite startsWith_self. apply orb_true_r.
Qed.

(** C7: the URL that is fetched is the trimmed input when that carries a
    http:// or https:// prefix (in any letter case), and the trimmed input
    after https:// otherwise; either way it carries such a prefix, and
    example.com becomes https://example.com. *)
Theorem C7_fetch_url (url : jsstring) :
  fetch_url url
  = (if has_scheme (trim url) then trim url else str "https://" ++ trim url)
  /\ has_scheme (fetch_url url) = true
  /\ fetch_url (str "example.com") = str "https://example.com"
  /\ startsWith (fetch_url (str "example.com")) (str "https://") = true.
Proof.
  assert (E : fetch_url url
              = if has_scheme (trim url) then trim url
                else str "https://" ++ trim url).
  { unfold fetch_url. rewrite test_re_scheme.
    now destruct (has_scheme (trim url)). }
  split; [exact E|]. split.
  - rewrite E. destruct (has_scheme (trim url)) eqn:H; [exact H|].
    apply has_scheme_https.
  - split; vm_compute; reflexivity.
Qed.

Section Check.
Context {browser : Browser}.
Variable net : Network.

(** C5: when the URL is not blank and the fetch of the page fails,
    [handleCheck] ends without throwing, in the state where no result
    list, no score and no load time are set (those of an earlier run are
    cleared), and exactly one toast, the failure notice, has been added;
    nothing of the response is read. *)
Theorem C5_fetch_failure (st : UiState) (e : jsstring) :
  is_empty (trim (url st)) = false ->
  fetch net (fetch_url (url st)) GET cors = Throw e ->
  handleCheck net st
  = (Ok tt,
     {| url := url st; results := None; loading := false;
        seoScore := None; loadTime := None; showPreview := false;
        toasts := toasts st ++ [unreachable_toast] |}).
Proof.
  intros Hurl Hfetch.
  unfold handleCheck, bind, update. cbn [url setResults setSeoScore setLoadTime setShowPreview].
  rewrite Hurl.
  unfold try_, check_body, bind, lift. rewrite Hfetch.
  reflexivity.
Qed.
End Check.

Lemma C5_fetch_failure_witness :
  handleCheck (browser := Fixture.browser) Fixture.offline Fixture.after_preview
  = (Ok tt,
     {| url := str " example.com "; results := None; loading := false;
        seoScore := None; loadTime := None; showPreview := false;
        toasts := [preview_toast; unreachable_toast] |}).
Proof.
  apply (C5_fetch_failure (browser := Fixture.browser) Fixture.offline
           Fixture.after_preview (e := str "TypeError: Failed to fetch")).
  - vm_compute. reflexivity.
  - reflexivity.
Defined.

(** ** Substrings *)

Lemma includes_iff (s needle : jsstring) :
  includes s needle = true <-> occurs needle s.
Proof.
  split.
  - induction s as [|x s IH]; simpl; rewrite orb_true_iff; intros [H|H].
    + apply startsWith_iff in H as [post ->]. now exists [], post.
    + discriminate H.
    + apply startsWith_iff in H as [post ->]. now exists [], post.
    + destruct (IH H) as [pre [post ->]]. now exists (x :: pre), post.
  - intros [pre [post ->]].
    induction pre as [|x pre IH].
    + destruct (needle ++ post) eqn:E; simpl; rewrite <- E;
        now rewrite startsWith_self.
    + simpl. rewrite IH. apply orb_true_r.
Qed.

Lemma img_without_alt_iff (img : jsstring) :
  img_without_alt img = true <-> missing_alt img.
Proof.
  unfold img_without_alt, missing_alt.
  rewrite !orb_true_iff, negb_true_iff, <- !includes_iff.
  rewrite <- not_true_iff_false. tauto.
Qed.

Lemma length_zero_iff (A : Type) (l : list A) :
  Nat.eqb (List.length l) 0 = true <-> l = [].
Proof. destruct l; simpl; split; congruence. Qed.

Lemma filter_nil_iff (A : Type) (f : A -> bool) (l : list A) :
  filter f l = [] <-> forall a, In a l -> f a <> true.
Proof.
  induction l as [|a l IH]; simpl.
  - split; [intros _ b [] | reflexivity].
  - destruct (f a) eqn:E.
    + split; [discriminate|]. intros H. exfalso. now apply (H a); [left|].
    + rewrite IH. split.
      * intros H b [<-|Hb]; [congruence | now apply H].
      * intros H b Hb. apply H. now right.
Qed.

(** A text has no match of a [g] pattern exactly when the pattern matches
    at none of its positions. *)
Lemma scan_nil_iff (re : regex) (s : jsstring) :
  scan re 0 s = []
  <-> forall pre post, s = pre ++ post ->
      match_here (ignoreCase re) (body re) post = None.
Proof.
  induction s as [|x s IH].
  - simpl. unfold match_at.
    destruct (match_here (ignoreCase re) (body re) []) as [[ms r]|] eqn:E.
    + split; [discriminate|]. intros H. now rewrite (H [] []) in E.
    + split; [|reflexivity]. intros _ pre post Hs.
      symmetry in Hs. apply app_eq_nil in Hs as [_ ->]. exact E.
  - simpl. unfold match_at.
    destruct (match_here (ignoreCase re) (body re) (x :: s)) as [[ms r]|] eqn:E.
    + split; [discriminate|]. intros H. now rewrite (H [] (x :: s)) in E.
    + rewrite IH. split.
      * intros H [|y pre] post Hs; simpl in Hs.
        -- now subst post.
        -- injection Hs as _ Hs. now apply (H pre).
      * intros H pre post Hs. apply (H (x :: pre)). simpl. now rewrite Hs.
Qed.

Lemma img_tags_nil_iff (html : jsstring) :
  img_tags html = []
  <-> forall pre post, html = pre ++ post ->
      match_here true (body re_img) post = None.
Proof.
  rewrite <- (scan_nil_iff re_img html).
  unfold img_tags, match_all, or_empty.
  destruct (scan re_img 0 html); split; congruence.
Qed.

Section Checks.
Context {browser : Browser}.
Variables (usesHttps robotsOk : bool) (pageLoadTime : float).

(** ** Images *)

(** ** Headings *)

(** The H1 Tags row follows the count of the analyzer: ok exactly when
    the count is one, and the value names the two failures. *)
Lemma H1_row (text : jsstring) :
  let n := h1 (counts (analyzeHeadingStructure text)) in
  exists r,
    row_of "H1 Tags" (newResults usesHttps robotsOk pageLoadTime text)
    = Some r
    /\ (ok r = true <-> n = 1)
    /\ (n = 0 -> value r = Text (count 0 ++ str " tag (Tidak ada)"))
    /\ (1 < n -> value r = Text (count n ++ str " tag (Terlalu banyak)")).
Proof.
  cbv zeta. eexists. split; [reflexivity|].
  cbn [ok value]. rewrite Nat.eqb_eq. split; [reflexivity|]. split.
  - intros ->. reflexivity.
  - intros Hn.
    destruct (h1 (counts (analyzeHeadingStructure text))) as [|[|n]];
      [lia | lia | reflexivity].
Qed.

(** C4, at the failing input [<H1>Title</H1>]: the heading is found (the
    pattern of the headings has flag [i]) but it is not counted (the
    pattern that reads its level has not), so the count of h1 is 0 and the
    H1 Tags row fails with the value for no heading; the same heading in
    lower case is counted and the row is ok. *)
Theorem C4_uppercase_h1_not_counted :
  let upper := analyzeHeadingStructure (str "<H1>Title</H1>") in
  let lower := analyzeHeadingStructure (str "<h1>Title</h1>") in
  headings upper = [str "<H1>Title</H1>"]
  /\ h1 (counts upper) = 0
  /\ option_map (fun r => (ok r, value r))
       (row_of "H1 Tags"
          (newResults usesHttps robotsOk pageLoadTime (str "<H1>Title</H1>")))
     = Some (false, Text (count 0 ++ str " tag (Tidak ada)"))
  /\ headings lower = [str "<h1>Title</h1>"]
  /\ h1 (counts lower) = 1
  /\ option_map ok
       (row_of "H1 Tags"
          (newResults usesHttps robotsOk pageLoadTime (str "<h1>Title</h1>")))
     = Some true.
Proof.
  cbv zeta.
  assert (Hu : analyzeHeadingStructure (str "<H1>Title</H1>")
               = {| headings := [str "<H1>Title</H1>"];
                    counts := {| h1 := 0; h2 := 0; h3 := 0; h4 := 0;
                                 h5 := 0; h6 := 0 |} |})
    by (vm_compute; reflexivity).
  assert (Hl : analyzeHeadingStructure (str "<h1>Title</h1>")
               = {| headings := [str "<h1>Title</h1>"];
                    counts := {| h1 := 1; h2 := 0; h3 := 0; h4 := 0;
                                 h5 := 0; h6 := 0 |} |})
    by (vm_compute; reflexivity).
  rewrite Hu, Hl. cbn [headings counts h1].
  do 2 (split; [reflexivity|]).
  split.
  - change (row_of "H1 Tags" (newResults usesHttps robotsOk pageLoadTime (str "<H1>Title</H1>")))
      with (Some (nth 8 (newResults usesHttps robotsOk pageLoadTime (str "<H1>Title</H1>"))
                    (row "" "" false Details))).
    cbn [option_map nth newResults ok value]. rewrite Hu. reflexivity.
  - do 2 (split; [reflexivity|]).
    change (row_of "H1 Tags" (newResults usesHttps robotsOk pageLoadTime (str "<h1>Title</h1>")))
      with (Some (nth 8 (newResults usesHttps robotsOk pageLoadTime (str "<h1>Title</h1>"))
                    (row "" "" false Details))).
    cbn [option_map nth newResults ok value]. rewrite Hl. reflexivity.
Qed.
End Checks.

(** ** Flag [i]: the matcher does not see the case of letters *)

Lemma ci_equal_cons (x y : N) (s s' : jsstring) :
  ci_equal (x :: s) (y :: s') <-> to_lower x = to_lower y /\ ci_equal s s'.
Proof.
  unfold ci_equal. simpl. split.
  - intros H. now injection H.
  - intros [-> ->]. reflexivity.
Qed.

Lemma ci_equal_nil_l (s : jsstring) : ci_equal [] s <-> s = [].
Proof. unfold ci_equal. destruct s; simpl; split; congruence. Qed.

Lemma ci_equal_refl (s : jsstring) : ci_equal s s.
Proof. reflexivity. Qed.

Lemma ci_equal_length (s s' : jsstring) :
  ci_equal s s' -> List.length s = List.length s'.
Proof.
  unfold ci_equal. intros H.
  rewrite <- (length_map to_lower s), H. apply length_map.
Qed.

Lemma canon_eq_cases (x y : N) :
  canon x = canon y ->
  x = y \/ ((65 <= x <= 122)%N /\ (65 <= y <= 122)%N).
Proof. unfold canon. N_cases. Qed.

Lemma letter_not_line_terminator (x : N) :
  (65 <= x <= 122)%N -> is_line_terminator x = false.
Proof. intros H. unfold is_line_terminator. simpl. N_cases. Qed.

Lemma letter_not_space (x : N) : (65 <= x <= 122)%N -> is_space x = false.
Proof. intros H. unfold is_space. simpl. N_cases. Qed.

Lemma existsb_pointwise (A : Type) (f g : A -> bool) (l : list A) :
  (forall a, f a = g a) -> existsb f l = existsb g l.
Proof.
  intros H. induction l as [|a l IH]; simpl; [reflexivity|].
  now rewrite H, IH.
Qed.

Lemma cset_mem_ci (c : cset) (x y : N) :
  to_lower x = to_lower y -> cset_mem true c x = cset_mem true c y.
Proof.
  intros H. apply canon_to_lower in H.
  destruct c as [k| | |neg items]; simpl.
  - now rewrite H.
  - destruct (canon_eq_cases _ _ H) as [->|[Hx Hy]]; [reflexivity|].
    now rewrite !letter_not_line_terminator.
  - destruct (canon_eq_cases _ _ H) as [->|[Hx Hy]]; [reflexivity|].
    now rewrite !letter_not_space.
  - f_equal. apply existsb_pointwise. intros [k|lo hi]; simpl; now rewrite H.
Qed.

Section QuantifiersCase.
Variable c : N -> bool.
Variable k : jsstring -> option (list jsstring * jsstring).
Hypothesis c_ci : forall x y, to_lower x = to_lower y -> c x = c y.
Hypothesis k_ci : forall s s', ci_equal s s' -> res_sim (k s) (k s').

Lemma one_ci (s s' : jsstring) :
  ci_equal s s' -> res_sim (one c k s) (one c k s').
Proof.
  destruct s as [|x s], s' as [|y s']; simpl; intros H;
    try (exact I); try discriminate H.
  apply ci_equal_cons in H as [Hxy H].
  rewrite (c_ci _ _ Hxy). destruct (c y); [now apply k_ci | exact I].
Qed.

Lemma greedy_ci (s s' : jsstring) :
  ci_equal s s' -> res_sim (greedy c k s) (greedy c k s').
Proof.
  revert s'. induction s as [|x s IH]; intros [|y s'] H;
    try discriminate H.
  - simpl. now apply k_ci.
  - pose proof H as H0. apply ci_equal_cons in H as [Hxy H].
    simpl. rewrite (c_ci _ _ Hxy). destruct (c y); [|now apply k_ci].
    specialize (IH s' H).
    destruct (greedy c k s) as [[ms r]|], (greedy c k s') as [[ms' r']|];
      simpl in IH; try contradiction; [exact IH | now apply k_ci].
Qed.

Lemma lazy_ci (s s' : jsstring) :
  ci_equal s s' -> res_sim (lazy c k s) (lazy c k s').
Proof.
  revert s'. induction s as [|x s IH]; intros [|y s'] H;
    try discriminate H.
  - simpl. pose proof (k_ci H) as Hk.
    destruct (k []) as [[ms r]|]; [exact Hk | exact I].
  - pose proof (k_ci H) as Hk. apply ci_equal_cons in H as [Hxy H].
    simpl.
    destruct (k (x :: s)) as [[ms r]|], (k (y :: s')) as [[ms' r']|];
      simpl in Hk; try contradiction; [exact Hk|].
    rewrite (c_ci _ _ Hxy). destruct (c y); [now apply IH | exact I].
Qed.
End QuantifiersCase.

Lemma match_here_ci (p : list atom) (s s' : jsstring) :
  ci_equal s s' -> res_sim (match_here true p s) (match_here true p s').
Proof.
  revert s s'. induction p as [|a p IH]; intros s s' H.
  - simpl. split; [constructor | exact H].
  - destruct a as [c|c|c|c|c| |]; cbn [match_here].
    + apply one_ci; auto using cset_mem_ci.
    + pose proof (one_ci (cset_mem true c) (match_here true p)
                    (cset_mem_ci c) IH H) as Ho.
      destruct (one _ _ s) as [[ms r]|], (one _ _ s') as [[ms' r']|];
        simpl in Ho; try contradiction; [exact Ho | now apply IH].
    + apply greedy_ci; auto using cset_mem_ci.
    + apply one_ci; auto using cset_mem_ci.
      intros t t' Ht. apply greedy_ci; auto using cset_mem_ci.
    + apply lazy_ci; auto using cset_mem_ci.
    + specialize (IH s s' H).
      destruct (match_here true p s) as [[ms r]|],
               (match_here true p s') as [[ms' r']|];
        simpl in IH; try contradiction; [|exact I].
      destruct IH as [Hms Hr]. split; [now constructor | exact Hr].
    + destruct s as [|x s], s' as [|y s']; try discriminate H;
        [now apply IH | exact I].
Qed.

Lemma consumed_ci (s s' r r' : jsstring) :
  ci_equal s s' -> ci_equal r r' -> ci_equal (consumed s r) (consumed s' r').
Proof.
  intros Hs Hr. unfold consumed, ci_equal.
  rewrite <- !firstn_map, Hs.
  now rewrite (ci_equal_length Hs), (ci_equal_length Hr).
Qed.

Lemma captures_ci (ms ms' : list jsstring) :
  Forall2 ci_equal ms ms' -> Forall2 ci_equal (captures ms) (captures ms').
Proof.
  revert ms ms'. fix IH 1. intros ms ms' H.
  destruct ms as [|o [|c ms0]].
  - inversion H. constructor.
  - inversion H as [|? ? ? ? ? Ht]; subst. inversion Ht. constructor.
  - inversion H as [|? o' ? t' Ho Ht]; subst.
    inversion Ht as [|? c' ? ms'' Hc Hms]; subst. simpl.
    constructor; [now apply consumed_ci | now apply IH].
Qed.

Section FlagI.
Variable re : regex.
Hypothesis flag_i : ignoreCase re = true.

Lemma match_at_ci (i : nat) (s s' : jsstring) :
  ci_equal s s' -> match_sim (match_at re i s) (match_at re i s').
Proof.
  intros H. unfold match_at. rewrite flag_i.
  pose proof (match_here_ci (body re) H) as Hm.
  destruct (match_here true (body re) s) as [[ms r]|],
           (match_here true (body re) s') as [[ms' r']|];
    simpl in Hm; try contradiction; [|exact I].
  destruct Hm as [Hms Hr]. simpl.
  split; [reflexivity|].
  split; [now apply consumed_ci | now apply captures_ci].
Qed.

Lemma search_from_ci (i : nat) (s s' : jsstring) :
  ci_equal s s' -> match_sim (search_from re i s) (search_from re i s').
Proof.
  revert i s'. induction s as [|x s IH]; intros i [|y s'] H;
    try discriminate H; pose proof (match_at_ci i H) as Hm; simpl.
  - destruct (match_at re i []); [exact Hm | exact I].
  - destruct (match_at re i (x :: s)), (match_at re i (y :: s'));
      simpl in Hm; try contradiction; [exact Hm|].
    apply IH. now apply ci_equal_cons in H.
Qed.

Lemma test_ci (s s' : jsstring) : ci_equal s s' -> test re s = test re s'.
Proof.
  intros H. unfold test, exec.
  assert (Hm : match_sim (if anchored re then match_at re 0 s
                          else search_from re 0 s)
                         (if anchored re then match_at re 0 s'
                          else search_from re 0 s'))
    by (destruct (anchored re); [now apply match_at_ci
                                | now apply search_from_ci]).
  destruct (if anchored re then match_at re 0 s else search_from re 0 s),
           (if anchored re then match_at re 0 s' else search_from re 0 s');
    simpl in Hm; tauto.
Qed.

Lemma scan_ci (skip : nat) (s s' : jsstring) :
  ci_equal s s' -> Forall2 ci_equal (scan re skip s) (scan re skip s').
Proof.
  revert skip s'. induction s as [|x s IH]; intros skip [|y s'] H;
    try discriminate H.
  - destruct skip; simpl; [|constructor].
    pose proof (match_at_ci 0 H) as Hm.
    destruct (match_at re 0 []); simpl in Hm; [|constructor].
    constructor; [apply Hm | constructor].
  - pose proof H as H0. apply ci_equal_cons in H as [_ H].
    destruct skip as [|n]; simpl; [|now apply IH].
    pose proof (match_at_ci 0 H0) as Hm.
    destruct (match_at re 0 (x :: s)) as [m|],
             (match_at re 0 (y :: s')) as [m'|];
      simpl in Hm; try contradiction; [|now apply IH].
    destruct Hm as [_ [Hw _]].
    constructor; [exact Hw|].
    rewrite (ci_equal_length Hw). now apply IH.
Qed.

Lemma match_all_ci (s s' : jsstring) :
  ci_equal s s' ->
  Forall2 ci_equal (or_empty (match_all re s)) (or_empty (match_all re s')).
Proof.
  intros H. pose proof (scan_ci 0 H) as Hs. unfold match_all.
  destruct (scan re 0 s), (scan re 0 s'); simpl; auto.
Qed.
End FlagI.

(** ** The description pattern on a tag in its own attribute order *)

Lemma search_from_app (re : regex) (s pre : jsstring) (i : nat) :
  isSome (match_here (ignoreCase re) (body re) s) = true ->
  isSome (search_from re i (pre ++ s)) = true.
Proof.
  intros H. revert i. induction pre as [|x pre IH]; intros i.
  - rewrite <- (isSome_match_at re i) in H. simpl app.
    destruct s; simpl; destruct (match_at re i _); simpl in *;
      congruence.
  - simpl. destruct (match_at re i (x :: pre ++ s)); [reflexivity | apply IH].
Qed.

Section Runs.
Variable R : Type.
Variable c : N -> bool.
Variable k : jsstring -> option R.

Lemma greedy_some (s : jsstring) :
  isSome (k s) = true -> isSome (greedy c k s) = true.
Proof.
  intros H. destruct s as [|x s]; simpl; [exact H|].
  destruct (c x); [|exact H]. now destruct (greedy c k s).
Qed.

Lemma greedy_run (ws s : jsstring) :
  Forall (fun x => c x = true) ws ->
  isSome (k s) = true -> isSome (greedy c k (ws ++ s)) = true.
Proof.
  intros Hws Hk. induction Hws as [|x ws Hx Hws IH]; simpl.
  - now apply greedy_some.
  - rewrite Hx. now destruct (greedy c k (ws ++ s)).
Qed.

Lemma lazy_run (v s : jsstring) :
  Forall (fun x => c x = true) v ->
  isSome (k s) = true -> isSome (lazy c k (v ++ s)) = true.
Proof.
  intros Hv Hk. induction Hv as [|x v Hx Hv IH]; simpl.
  - destruct s; simpl; destruct (k _); simpl in *; congruence.
  - destruct (k (x :: v ++ s)); [reflexivity|]. now rewrite Hx.
Qed.
End Runs.

Section Steps.
Variable p : list atom.
Variable s : jsstring.
Hypothesis rest_matches : isSome (match_here true p s) = true.

Lemma step_lit (w : String.string) :
  Forall (fun c => to_lower c = c) (str w) ->
  isSome (match_here true (lit w ++ p) (str w ++ s)) = true.
Proof.
  intros Hw. rewrite lit_str, (match_here_lits _ _ Hw), map_app.
  replace (map to_lower (str w)) with (str w).
  - rewrite startsWith_self, skipn_app, skipn_all, Nat.sub_diag.
    exact rest_matches.
  - induction Hw as [|c l Hc Hl IH]; simpl; [reflexivity|].
    now rewrite Hc, <- IH.
Qed.

Lemma step_plus (c : cset) (ws : jsstring) :
  ws <> [] -> Forall (fun x => cset_mem true c x = true) ws ->
  isSome (match_here true (Plus c :: p) (ws ++ s)) = true.
Proof.
  intros Hne Hws. destruct Hws as [|x ws Hx Hws]; [congruence|].
  cbn [match_here app one]. rewrite Hx. now apply greedy_run.
Qed.

Lemma step_quote (q : N) :
  is_quote q -> isSome (match_here true (One quote :: p) (q :: s)) = true.
Proof.
  intros [-> | ->]; exact rest_matches.
Qed.

Lemma step_mark : isSome (match_here true (Mark :: p) s) = true.
Proof.
  cbn [match_here]. now destruct (match_here true p s) as [[ms r]|].
Qed.

Lemma step_lazy_dot (v : jsstring) :
  Forall (fun x => is_line_terminator x = false) v ->
  isSome (match_here true (LazyStar Dot :: p) (v ++ s)) = true.
Proof.
  intros Hv. cbn [match_here]. apply lazy_run; [|exact rest_matches].
  apply Forall_impl with (2 := Hv). intros x Hx. simpl. now rewrite Hx.
Qed.
End Steps.

Lemma description_tag_matches (ws1 ws2 v post : jsstring) (q1 q2 q3 q4 : N) :
  ws1 <> [] -> ws2 <> [] ->
  Forall (fun x => is_space x = true) ws1 ->
  Forall (fun x => is_space x = true) ws2 ->
  is_quote q1 -> is_quote q2 -> is_quote q3 -> is_quote q4 ->
  Forall (fun x => is_line_terminator x = false) v ->
  isSome (match_here true (body re_desc)
            (description_tag ws1 q1 q2 ws2 q3 v q4 ++ post)) = true.
Proof.
  intros Hn1 Hn2 Hw1 Hw2 Hq1 Hq2 Hq3 Hq4 Hv.
  unfold description_tag, re_desc, re_meta_content. cbn [body].
  rewrite <- !app_assoc. cbn [app].
  apply step_lit; [|repeat constructor].
  apply step_plus; [| exact Hn1 | exact Hw1].
  apply step_lit; [|repeat constructor].
  apply step_quote; [|exact Hq1].
  apply step_lit; [|repeat constructor].
  apply step_quote; [|exact Hq2].
  apply step_plus; [| exact Hn2 | exact Hw2].
  apply step_lit; [|repeat constructor].
  apply step_quote; [|exact Hq3].
  apply step_mark. apply step_lazy_dot; [|exact Hv].
  apply step_mark. apply step_quote; [|exact Hq4].
  reflexivity.
Qed.

Lemma html_regexes_flag_i (re : regex) :
  In re html_regexes -> ignoreCase re = true.
Proof.
  unfold html_regexes. simpl.
  intros H. repeat (destruct H as [<-|H]; [reflexivity|]). contradiction.
Qed.

(** C2, as stated, fails: a description meta tag with white space around
    the equals signs is not matched, nor is one with the content attribute
    first; the Meta Description Present row of such a page is not ok. *)
Lemma C2_spaced_description_not_matched :
  test re_desc (str "<meta name = 'description' content = 'About us'>") = false
  /\ test re_desc (str "<meta content='About us' name='description'>") = false
  /\ option_map ok
       (row_of "Meta Description Present"
          (newResults (browser := Fixture.browser) true true 120%float
             (str "<meta name = 'description' content = 'About us'>")))
     = Some false.
Proof. repeat split; vm_compute; reflexivity. Qed.

(** C2, amended: every regular expression the detectors run on the HTML
    text has flag [i], so two texts that differ in the case of letters only
    get the same answer from [test] and matches that differ in case only;
    and the Meta Description pattern matches, wherever it stands in the
    text, a description meta tag written with the name attribute first and
    the content attribute next, white space before each, no white space
    around the equals signs, either quote around the values and a content
    without line terminators. *)
Theorem C2_flag_i_and_description_tag :
  (forall re t t',
      In re html_regexes -> ci_equal t t' ->
      test re t = test re t'
      /\ Forall2 ci_equal (or_empty (match_all re t))
           (or_empty (match_all re t')))
  /\ (forall pre post ws1 ws2 v q1 q2 q3 q4,
        ws1 <> [] -> ws2 <> [] ->
        Forall (fun x => is_space x = true) ws1 ->
        Forall (fun x => is_space x = true) ws2 ->
        is_quote q1 -> is_quote q2 -> is_quote q3 -> is_quote q4 ->
        Forall (fun x => is_line_terminator x = false) v ->
        test re_desc (pre ++ description_tag ws1 q1 q2 ws2 q3 v q4 ++ post)
        = true).
Proof.
  split.
  - intros re t t' Hre Ht. apply html_regexes_flag_i in Hre.
    split; [now apply test_ci | now apply match_all_ci].
  - intros pre post ws1 ws2 v q1 q2 q3 q4 Hn1 Hn2 Hw1 Hw2 Hq1 Hq2 Hq3 Hq4 Hv.
    rewrite test_isSome. unfold exec. cbn [anchored re_desc re_meta_content].
    apply search_from_app. now apply description_tag_matches.
Qed.

Lemma C2_flag_i_and_description_tag_witness :
  test re_desc (str "<META NAME='description' CONTENT='About us'>")
  = test re_desc (str "<meta name='description' content='About us'>")
  /\ test re_desc
       (str "<head>"
        ++ description_tag (str " ") (ch "'") (ch "'") (str " ") dq
             (str "About us") dq
        ++ str "</head>") = true.
Proof.
  split.
  - apply (proj1 C2_flag_i_and_description_tag re_desc).
    + simpl. tauto.
    + vm_compute. reflexivity.
  - apply (proj2 C2_flag_i_and_description_tag).
    + discriminate.
    + discriminate.
    + repeat constructor.
    + repeat constructor.
    + right; reflexivity.
    + right; reflexivity.
    + left; reflexivity.
    + left; reflexivity.
    + repeat constructor.
Defined.

(** ** The engine run on small pages *)

Example images_without_alt :
  analyzeImages (str "<img src='x'><img src='y' alt=''>")
  = {| img_total := 2; withoutAlt := 2 |}
  /\ analyzeImages (str "<p>no picture</p>")
     = {| img_total := 0; withoutAlt := 0 |}.
Proof. split; vm_compute; reflexivity. Qed.

Example social_tags :
  analyzeSocialTags
    (str "<meta property='og:title' content='x'><meta name='twitter:card' content='y'>")
  = {| openGraph := 1; twitter := 1 |}.
Proof. vm_compute. reflexivity. Qed.

Example eight_of_ten :
  percentage_of 8 10 = 80%float /\ percentage_of 1 8 = 13%float.
Proof. split; vm_compute; reflexivity. Qed.

Example small_page :
  let rows :=
    newResults (browser := Fixture.browser) true true 500%float
      (str "<html><head><title>T</title></head><body><h1>H</h1></body></html>") in
  map ok rows
  = [true; true; true; true; false; false; false; false; true; false; true;
     false; false; false; false; true; true; false]
  /\ option_map value (row_of "Page Load Time" rows)
     = Some (Text (str "500ms (Baik)"))
  /\ option_map value (row_of "Page Title" rows)
     = Some (Span mono_class [str "T"])
  /\ seoScoreOf rows
     = {| score := 7; total := 16; percentage := 44%float |}.
Proof. cbv zeta. repeat split; vm_compute; reflexivity. Qed.

Example preview_after_typing :
  snd (handlePreview (browser := Fixture.browser) Fixture.after_preview)
  = {| url := str " example.com ";
       results := Some (dummy_results (getDummyData (str "example.com")));
       loading := false;
       seoScore := Some {| score := 16; total := 16; percentage := 100%float |};
       loadTime := Some 1200%float;
       showPreview := true;
       toasts := [preview_toast; preview_toast] |}.
Proof. vm_compute. reflexivity. Qed.

(** ** The submit handler, path by path *)

Lemma trimStart_nil_iff (s : jsstring) : trimStart s = [] <-> blank s.
Proof.
  unfold blank. induction s as [|x s IH]; simpl.
  - split; [constructor | reflexivity].
  - destruct (is_space x) eqn:E.
    + rewrite IH. split; [now constructor | now inversion 1].
    + split; [discriminate | inversion 1; congruence].
Qed.

Lemma trimStart_blank (s : jsstring) : blank (trimStart s) -> trimStart s = [].
Proof.
  induction s as [|x s IH]; simpl; [reflexivity|].
  destruct (is_space x) eqn:E; [exact IH|].
  inversion 1; congruence.
Qed.

Lemma trim_empty_iff (s : jsstring) : is_empty (trim s) = true <-> blank s.
Proof.
  unfold trim. rewrite <- trimStart_nil_iff.
  destruct (trimStart s) as [|x t] eqn:E; [now split|].
  split; [|discriminate].
  intros H. exfalso.
  assert (Hr : rev (trimStart (rev (x :: t))) = []).
  { destruct (rev (trimStart (rev (x :: t)))); [reflexivity | discriminate H]. }
  apply (f_equal (@rev N)) in Hr. rewrite rev_involutive in Hr. simpl rev in Hr.
  apply trimStart_nil_iff in Hr.
  assert (Hb : blank (x :: t)).
  { unfold blank in *. rewrite Forall_forall in *. intros y Hy.
    apply Hr. change (rev t ++ [x]) with (rev (x :: t)).
    now apply -> in_rev. }
  rewrite <- E in Hb. apply trimStart_blank in Hb. congruence.
Qed.

Section Handler.
Context {browser : Browser}.
Variable net : Network.

(** X1: a URL that is empty or white space only is refused before any
    request: the handler ends with the report, the score and the load time
    cleared, the loading flag as it was, and one toast, the one that asks for
    a URL; the network plays no part in the outcome. *)
Theorem handleCheck_blank_url (st : UiState) :
  blank (url st) ->
  handleCheck net st
  = (Ok tt,
     {| url := url st; results := None; loading := loading st;
        seoScore := None; loadTime := None; showPreview := false;
        toasts := toasts st ++ [empty_url_toast] |}).
Proof.
  intros H. apply trim_empty_iff in H.
  unfold handleCheck, bind, update.
  cbn [url setResults setSeoScore setLoadTime setShowPreview].
  rewrite H. reflexivity.
Qed.

(** X3: when the page is fetched but its body cannot be read, the handler
    ends with the failure toast and without report or score, yet with the
    load time set: it was stored between the two awaits. *)
Theorem handleCheck_body_failure (st : UiState) (res : Response)
    (e : jsstring) :
  ~ blank (url st) ->
  fetch net (fetch_url (url st)) GET cors = Ok res ->
  res_text res = Throw e ->
  handleCheck net st
  = (Ok tt,
     {| url := url st; results := None; loading := false;
        seoScore := None;
        loadTime :=
          Some (Math_round (PrimFloat.sub (performance_now net 1)
                              (performance_now net 0)));
        showPreview := false;
        toasts := toasts st ++ [unreachable_toast] |}).
Proof.
  intros Hurl Hfetch Htext.
  rewrite <- trim_empty_iff, not_true_iff_false in Hurl.
  unfold handleCheck, bind, update.
  cbn [url setResults setSeoScore setLoadTime setShowPreview].
  rewrite Hurl.
  unfold try_, check_body, bind, lift, update. rewrite Hfetch, Htext.
  reflexivity.
Qed.

(** X4: when the page is fetched and its body read, the handler stores
    the rows assembled from the body, their score, and the rounded time
    between the two clock readings, and shows one toast with the score.  The
    HTTPS flag is read off the fetched URL, and the robots flag off a HEAD
    request to that URL, trailing slashes removed, followed by
    /robots.txt. *)
Theorem handleCheck_success (st : UiState) (res : Response)
    (text : jsstring) :
  ~ blank (url st) ->
  fetch net (fetch_url (url st)) GET cors = Ok res ->
  res_text res = Ok text ->
  let inputUrl := fetch_url (url st) in
  let pageLoadTime :=
    Math_round (PrimFloat.sub (performance_now net 1)
                  (performance_now net 0)) in
  let robotsOk :=
    robots_found
      (fetch net (replace re_trailing_slashes (str "") inputUrl
                  ++ str "/robots.txt") HEAD no_cors) in
  let rows :=
    newResults (startsWith inputUrl (str "https://")) robotsOk pageLoadTime
      text in
  handleCheck net st
  = (Ok tt,
     {| url := url st; results := Some rows; loading := false;
        seoScore := Some (seoScoreOf rows);
        loadTime := Some pageLoadTime;
        showPreview := false;
        toasts := toasts st ++ [done_toast (seoScoreOf rows)] |}).
Proof.
  intros Hurl Hfetch Htext.
  rewrite <- trim_empty_iff, not_true_iff_false in Hurl.
  cbv zeta.
  unfold handleCheck, bind, update.
  cbn [url setResults setSeoScore setLoadTime setShowPreview].
  rewrite Hurl.
  unfold try_, check_body, bind, lift, update, robots_found.
  rewrite Hfetch, Htext.
  reflexivity.
Qed.

(** X2: whatever the URL and the network, a run of the handler never
    throws, keeps the typed URL, leaves the preview notice off, adds exactly
    one toast, sets the report and the score together or not at all, sets
    the load time whenever it sets a report, and ends with the loading flag
    off unless it refused a blank URL. *)
Theorem handleCheck_invariants (st : UiState) :
  exists st' t,
    handleCheck net st = (Ok tt, st')
    /\ url st' = url st
    /\ showPreview st' = false
    /\ toasts st' = toasts st ++ [t]
    /\ (results st' = None <-> seoScore st' = None)
    /\ (results st' <> None -> loadTime st' <> None)
    /\ loading st' = (if is_empty (trim (url st)) then loading st else false).
Proof.
  unfold handleCheck, bind, update.
  cbn [url setResults setSeoScore setLoadTime setShowPreview].
  destruct (is_empty (trim (url st))) eqn:Hurl.
  - do 2 eexists. split; [reflexivity|]. cbn. repeat split; congruence.
  - unfold try_, check_body, bind, lift, update.
    destruct (fetch net (fetch_url (url st)) GET cors) as [res|e].
    + destruct (res_text res) as [text|e].
      * do 2 eexists. split; [reflexivity|]. cbn.
        repeat split; congruence.
      * do 2 eexists. split; [reflexivity|]. cbn.
        repeat split; congruence.
    + do 2 eexists. split; [reflexivity|]. cbn. repeat split; congruence.
Qed.
End Handler.

(** ** What the page shows of a report *)

Lemma jsstring_eqb_eq (a b : jsstring) : jsstring_eqb a b = true <-> a = b.
Proof.
  unfold jsstring_eqb. destruct (list_eq_dec N.eq_dec a b); split;
    congruence.
Qed.

Lemma jsstring_eqb_refl (a : jsstring) : jsstring_eqb a a = true.
Proof. now apply jsstring_eqb_eq. Qed.

Lemma jsstring_eqb_trans_l (a b c : jsstring) :
  jsstring_eqb a b = true -> jsstring_eqb a c = jsstring_eqb b c.
Proof. intros H. apply jsstring_eqb_eq in H. now subst. Qed.

Lemma group_of_push (key k : jsstring) (r : SeoResult)
    (acc : list (jsstring * list SeoResult)) :
  group_of k (push_group key r acc)
  = if jsstring_eqb key k then
      Some (match group_of k acc with
            | Some rows => rows ++ [r]
            | None => [r]
            end)
    else group_of k acc.
Proof.
  induction acc as [|[k0 rows] acc IH]; simpl.
  - reflexivity.
  - destruct (jsstring_eqb k0 key) eqn:E0; simpl.
    + rewrite <- (@jsstring_eqb_trans_l k0 key k E0).
      now destruct (jsstring_eqb k0 k).
    + destruct (jsstring_eqb k0 k) eqn:E1; [|exact IH].
      destruct (jsstring_eqb key k) eqn:E2; [|reflexivity].
      apply jsstring_eqb_eq in E1, E2. subst.
      now rewrite jsstring_eqb_refl in E0.
Qed.

Lemma push_group_NoDup (key : jsstring) (r : SeoResult)
    (acc : list (jsstring * list SeoResult)) :
  NoDup (map fst acc) -> NoDup (map fst (push_group key r acc)).
Proof.
  intros H. rewrite push_group_keys.
  destruct (existsb _ (map fst acc)) eqn:E; [exact H|].
  apply NoDup_app; [exact H | repeat constructor; intros [] |].
  intros k Hk [Heq|[]]. subst k.
  assert (existsb (fun k0 => jsstring_eqb k0 key) (map fst acc) = true)
    by (apply existsb_exists; exists key; split;
        [exact Hk | apply jsstring_eqb_refl]).
  congruence.
Qed.

Lemma groupedResults_snoc (rs : list SeoResult) (r : SeoResult) :
  groupedResults (rs ++ [r])
  = if scorable r
    then push_group (category_name (category r)) r (groupedResults rs)
    else groupedResults rs.
Proof.
  unfold groupedResults. rewrite fold_left_app. simpl.
  rewrite category_name_not_empty. simpl.
  unfold scorable, category_eqb. now destruct (category r).
Qed.

Lemma scorable_not_Details_name (r : SeoResult) :
  scorable r = negb (jsstring_eqb (category_name (category r)) (str "Details")).
Proof. unfold scorable. now destruct (category r). Qed.

Lemma groupedResults_NoDup (rs : list SeoResult) :
  NoDup (map fst (groupedResults rs)).
Proof.
  induction rs as [|r rs IH] using rev_ind; [constructor|].
  rewrite groupedResults_snoc.
  destruct (scorable r); [now apply push_group_NoDup | exact IH].
Qed.

(** X15: the object the page groups the rows in holds, under each key,
    exactly the rows of that category outside Details, in their order in the
    report; a key is present only when it has rows, no key occurs twice, and
    there is no Details key. *)
Theorem groupedResults_lookup (rs : list SeoResult) (key : jsstring) :
  group_of key (groupedResults rs)
  = match rows_under key rs with
    | [] => None
    | rows => Some rows
    end
  /\ NoDup (map fst (groupedResults rs))
  /\ group_of (str "Details") (groupedResults rs) = None.
Proof.
  assert (L : forall k,
             group_of k (groupedResults rs)
             = match rows_under k rs with [] => None | rows => Some rows end).
  { intros k. induction rs as [|r rs IH] using rev_ind; [reflexivity|].
    rewrite groupedResults_snoc. unfold rows_under in *.
    rewrite filter_app. simpl.
    destruct (scorable r); simpl; [|rewrite app_nil_r; exact IH].
    rewrite group_of_push, IH.
    destruct (jsstring_eqb (category_name (category r)) k); simpl.
    - destruct (filter _ rs); reflexivity.
    - rewrite app_nil_r. reflexivity. }
  split; [apply L|]. split.
  - apply groupedResults_NoDup.
  - rewrite L. unfold rows_under.
    replace (filter _ rs) with (@nil SeoResult); [reflexivity|].
    symmetry. apply filter_nil_iff. intros r _.
    rewrite scorable_not_Details_name.
    now destruct (jsstring_eqb _ (str "Details")).
Qed.

Lemma groupedResults_key_is_category (rs : list SeoResult) (key : jsstring) :
  In key (map fst (groupedResults rs)) ->
  exists r, In r rs /\ scorable r = true
            /\ key = category_name (category r).
Proof.
  induction rs as [|r rs IH] using rev_ind; [intros []|].
  rewrite groupedResults_snoc.
  destruct (scorable r) eqn:E.
  - rewrite push_group_keys.
    destruct (existsb _ _).
    + intros H. destruct (IH H) as [r0 [Hin H0]].
      exists r0. split; [apply in_or_app; now left | exact H0].
    + intros H. apply in_app_or in H as [H|[<-|[]]].
      * destruct (IH H) as [r0 [Hin H0]].
        exists r0. split; [apply in_or_app; now left | exact H0].
      * exists r. split; [apply in_or_app; right; now left | now split].
  - intros H. destruct (IH H) as [r0 [Hin H0]].
    exists r0. split; [apply in_or_app; now left | exact H0].
Qed.

(** X16: every card of grouped rows gets a title: each key the grouping
    can produce is one of the eight names the card header tests for. *)
Theorem every_card_has_a_title (rs : list SeoResult) (key : jsstring) :
  In key (map fst (groupedResults rs)) -> card_title key <> [].
Proof.
  intros H. destruct (groupedResults_key_is_category rs key H)
    as [r [_ [Hs ->]]].
  unfold scorable in Hs. destruct (category r); try discriminate Hs;
    vm_compute; discriminate.
Qed.

(** ** The score of an assembled report *)

Section Assembled.
Context {browser : Browser}.
Variables (usesHttps robotsOk : bool) (pageLoadTime : float).
Variable text : jsstring.

Let rows := newResults usesHttps robotsOk pageLoadTime text.

Lemma newResults_totalChecks : totalChecks rows = 16.
Proof. reflexivity. Qed.

Lemma newResults_passedChecks : 1 <= passedChecks rows <= 16.
Proof.
  split.
  - unfold passedChecks.
    assert (H : In (nth 15 rows (row "" "" false Details))
                  (filter (fun result => ok result && not_details result) rows)).
    { apply filter_In. split; [|reflexivity].
      unfold rows, newResults. cbn [nth]. simpl. do 15 right. now left. }
    destruct (filter _ rows); [destruct H | simpl; lia].
  - rewrite <- newResults_totalChecks. apply passedChecks_le_totalChecks.
Qed.

(** X17: every assembled report is scored over 16 checks, of which at
    least one passes (External Links always does), and its percentage is
    round(100 * passed / 16), an integer from 6 to 100; it is never NaN. *)
Theorem assembled_score :
  let s := seoScoreOf rows in
  total s = 16
  /\ 1 <= score s <= 16
  /\ percentage s = nat_to_number (round_div (100 * score s) 16)
  /\ 6 <= round_div (100 * score s) 16 <= 100.
Proof.
  cbv zeta. unfold seoScoreOf. cbn [total score percentage].
  pose proof newResults_passedChecks as Hp.
  rewrite newResults_totalChecks. generalize dependent (passedChecks rows).
  intros p Hp.
  split; [reflexivity|]. split; [exact Hp|]. split.
  - apply percentage_of_exact; lia.
  - unfold round_div. split.
    + apply Nat.div_le_lower_bound; lia.
    + assert ((2 * (100 * p) + 16) / (2 * 16) < 101)
        by (apply Nat.Div0.div_lt_upper_bound; lia).
      lia.
Qed.

Lemma badge_16 (p : nat) :
  p <= 16 ->
  let s := {| score := p; total := 16; percentage := percentage_of p 16 |} in
  badge_text s
  = str (if 13 <=? p then "Excellent"
         else if 10 <=? p then "Good" else "Needs Work")
  /\ badge_variant s
     = str (if 13 <=? p then "default"
            else if 10 <=? p then "secondary" else "destructive").
Proof.
  intros H.
  do 17 (destruct p as [|p]; [split; vm_compute; reflexivity|]). lia.
Qed.

(** X18: on an assembled report the badge reads Excellent from 13
    passed checks on, Good for 10 to 12, Needs Work below, and its variant
    follows the same bounds. *)
Theorem assembled_badge :
  badge_text (seoScoreOf rows)
  = str (if 13 <=? passedChecks rows then "Excellent"
         else if 10 <=? passedChecks rows then "Good" else "Needs Work")
  /\ badge_variant (seoScoreOf rows)
     = str (if 13 <=? passedChecks rows then "default"
            else if 10 <=? passedChecks rows then "secondary"
            else "destructive").
Proof.
  unfold seoScoreOf. rewrite newResults_totalChecks.
  apply badge_16. apply newResults_passedChecks.
Qed.
End Assembled.

(** ** The analyzers *)

Section Analyzers.
Context {browser : Browser}.

Lemma bump_total (level : jsstring) (c : HeadingCounts) :
  heading_total c <= heading_total (bump level c) <= S (heading_total c).
Proof.
  unfold bump, heading_total.
  repeat (destruct (jsstring_eqb level _); [simpl; lia|]). lia.
Qed.

Lemma count_heading_total (c : HeadingCounts) (heading : jsstring) :
  heading_total (count_heading c heading) <= S (heading_total c).
Proof.
  unfold count_heading. destruct (exec re_level heading) as [m|]; [|lia].
  apply bump_total.
Qed.

Lemma fold_count_heading_total (hs : list jsstring) (c : HeadingCounts) :
  heading_total (fold_left count_heading hs c)
  <= heading_total c + List.length hs.
Proof.
  revert c. induction hs as [|h hs IH]; intros c; simpl; [lia|].
  specialize (IH (count_heading c h)).
  pose proof (count_heading_total c h). lia.
Qed.

(** X7: the counters never exceed the matches: the six heading counters
    together count at most the headings found, the images without alt text
    are at most the images found, and the first number of the Images Alt Text
    value is the number of images the filter lets through. *)
Theorem counts_within_matches (html : jsstring) :
  heading_total (counts (analyzeHeadingStructure html))
  <= List.length (headings (analyzeHeadingStructure html))
  /\ withoutAlt (analyzeImages html) <= img_total (analyzeImages html)
  /\ img_total (analyzeImages html) - withoutAlt (analyzeImages html)
     = List.length
         (filter (fun img => negb (img_without_alt img)) (img_tags html)).
Proof.
  split; [|split].
  - unfold analyzeHeadingStructure. cbn [counts headings].
    apply (fold_count_heading_total _
             {| h1 := 0; h2 := 0; h3 := 0; h4 := 0; h5 := 0; h6 := 0 |}).
  - unfold analyzeImages. cbn [withoutAlt img_total]. apply filter_length_le.
  - unfold analyzeImages, img_tags. cbn [withoutAlt img_total].
    pose proof (filter_partition_length img_without_alt
                  (or_empty (match_all re_img html))). lia.
Qed.

Lemma Forall2_length_eq (A : Type) (R : A -> A -> Prop) (l l' : list A) :
  Forall2 R l l' -> List.length l = List.length l'.
Proof. induction 1; simpl; congruence. Qed.

Lemma case_blind_rows (usesHttps robotsOk : bool) (pageLoadTime : float)
    (text : jsstring) :
  map (fun l => option_map ok
                  (row_of l (newResults usesHttps robotsOk pageLoadTime text)))
    case_blind_checks
  = [Some (test re_title text); Some (test re_desc text);
     Some (test re_keywords text); Some (test re_viewport text);
     Some (test re_canonical text);
     Some (Nat.ltb 0 (List.length (or_empty (match_all re_og text))));
     Some (Nat.ltb 0 (List.length (or_empty (match_all re_twitter text))))].
Proof. reflexivity. Qed.

(** X10: two pages that differ in the case of letters only give the same
    social tag counts, the same numbers of images, links and headings found,
    and the same outcome of the seven checks that read the page through a
    pattern with flag [i] only. *)
Theorem letter_case_of_the_page (usesHttps robotsOk : bool)
    (pageLoadTime : float) (text text' : jsstring) :
  ci_equal text text' ->
  analyzeSocialTags text = analyzeSocialTags text'
  /\ img_total (analyzeImages text) = img_total (analyzeImages text')
  /\ link_total (analyzeLinks text) = link_total (analyzeLinks text')
  /\ List.length (headings (analyzeHeadingStructure text))
     = List.length (headings (analyzeHeadingStructure text'))
  /\ map (fun l => option_map ok
                     (row_of l (newResults usesHttps robotsOk pageLoadTime text)))
       case_blind_checks
     = map (fun l => option_map ok
                       (row_of l (newResults usesHttps robotsOk pageLoadTime text')))
         case_blind_checks.
Proof.
  intros H.
  assert (L : forall re, ignoreCase re = true ->
              List.length (or_empty (match_all re text))
              = List.length (or_empty (match_all re text'))).
  { intros re Hre. apply (Forall2_length_eq (R := ci_equal)).
    now apply match_all_ci. }
  split; [|split; [|split; [|split]]].
  - unfold analyzeSocialTags.
    now rewrite (L re_og eq_refl), (L re_twitter eq_refl).
  - unfold analyzeImages. cbn [img_total]. now apply L.
  - unfold analyzeLinks. cbn [link_total]. now apply L.
  - unfold analyzeHeadingStructure. cbn [headings]. now apply L.
  - rewrite !case_blind_rows.
    rewrite (test_ci re_title eq_refl H), (test_ci re_desc eq_refl H),
      (test_ci re_keywords eq_refl H), (test_ci re_viewport eq_refl H),
      (test_ci re_canonical eq_refl H), (L re_og eq_refl),
      (L re_twitter eq_refl).
    reflexivity.
Qed.

(** X6: the HTTPS Usage row is ok exactly when the typed URL has no
    scheme (https:// is then put in front) or starts with https:// in lower
    case; a scheme typed in upper case is fetched as typed and the row
    fails. *)
Theorem https_row (robotsOk : bool) (pageLoadTime : float)
    (url text : jsstring) :
  option_map ok
    (row_of "HTTPS Usage"
       (newResults (startsWith (fetch_url url) (str "https://")) robotsOk
          pageLoadTime text))
  = Some (negb (has_scheme (trim url))
          || startsWith (trim url) (str "https://")).
Proof.
  change (row_of "HTTPS Usage" _)
    with (Some (nth 0 (newResults (startsWith (fetch_url url) (str "https://"))
                         robotsOk pageLoadTime text)
                  (row "" "" false Details))).
  cbn [option_map nth newResults ok]. f_equal.
  unfold fetch_url. rewrite test_re_scheme.
  destruct (has_scheme (trim url)); cbn [negb orb]; [reflexivity|].
  apply startsWith_self.
Qed.

Lemma extractHostname_eq (url : jsstring) :
  extractHostname url
  = Ok match URL_hostname
               (if has_scheme url then url else str "http://" ++ url) with
       | Ok host => host
       | Throw _ => str ""
       end.
Proof.
  unfold extractHostname, try_catch. rewrite test_re_scheme.
  destruct (has_scheme url); cbn [negb]; now destruct (URL_hostname _).
Qed.

End Analyzers.

(** ** The robots.txt address *)

Lemma greedy_at_end (ic : bool) (c : N -> bool) (t : jsstring) :
  greedy c (match_here ic [AtEnd]) t
  = if forallb c t then Some ([], []) else None.
Proof.
  induction t as [|x t IH]; cbn [greedy forallb]; [reflexivity|].
  destruct (c x); cbn [andb]; [|reflexivity].
  rewrite IH. now destruct (forallb c t).
Qed.

Lemma slash_run (t : jsstring) :
  match_here false (body re_trailing_slashes) t
  = if negb (is_empty t) && forallb (N.eqb (ch "/")) t
    then Some ([], []) else None.
Proof.
  change (match_here false (body re_trailing_slashes) t)
    with (one (cset_mem false (Lit (ch "/")))
            (greedy (cset_mem false (Lit (ch "/")))
               (match_here false [AtEnd])) t).
  destruct t as [|x t]; cbn [one is_empty negb andb]; [reflexivity|].
  rewrite greedy_at_end.
  cbn [cset_mem item_mem forallb].
  destruct (ch "/" =? x)%N; cbn [andb]; reflexivity.
Qed.

Lemma forallb_slash_last (r2 sl : jsstring) (z : N) :
  z <> ch "/" -> forallb (N.eqb (ch "/")) ((r2 ++ [z]) ++ sl) = false.
Proof.
  intros Hz. rewrite !forallb_app. cbn [forallb].
  destruct (N.eqb_spec (ch "/") z); [congruence|].
  now destruct (forallb (N.eqb (ch "/")) r2).
Qed.

Lemma search_from_skip (re : regex) (r s : jsstring) (i : nat) :
  (forall r1 r2, r = r1 ++ r2 -> r2 <> [] ->
     match_here (ignoreCase re) (body re) (r2 ++ s) = None) ->
  search_from re i (r ++ s) = search_from re (i + List.length r) s.
Proof.
  revert i. induction r as [|x r IH]; intros i H.
  - simpl. now rewrite Nat.add_0_r.
  - cbn [app search_from]. unfold match_at at 1.
    assert (H0 : match_here (ignoreCase re) (body re) (x :: r ++ s) = None)
      by (apply (H [] (x :: r) eq_refl); discriminate).
    rewrite H0, IH.
    + f_equal. simpl. lia.
    + intros r1 r2 -> Hne. apply (H (x :: r1) r2); [reflexivity | exact Hne].
Qed.

(** X5: the address of robots.txt is built from the fetched URL with all
    its trailing slashes removed: for a text [r] that does not end in a
    slash, [r] followed by any number of slashes gives back [r]. *)
Theorem trailing_slashes_removed (r : jsstring) (k : nat) :
  (forall r', r <> r' ++ [ch "/"]) ->
  replace re_trailing_slashes (str "") (r ++ repeat (ch "/") k) = r.
Proof.
  intros Hr. unfold replace, exec. cbn [anchored re_trailing_slashes].
  fold re_trailing_slashes.
  rewrite search_from_skip.
  - assert (Hsl : forallb (N.eqb (ch "/")) (repeat (ch "/") k) = true).
    { apply forallb_forall. intros x Hx. apply repeat_spec in Hx.
      subst. reflexivity. }
    destruct (repeat (ch "/") k) as [|x sl] eqn:E.
    + cbn [search_from]. unfold match_at. rewrite slash_run.
      cbn. apply app_nil_r.
    + cbn [search_from]. unfold match_at. rewrite slash_run, Hsl.
      cbn [is_empty negb andb index whole]. unfold consumed.
      cbn [List.length Nat.sub str String.list_ascii_of_string map app].
      change (S (List.length sl)) with (List.length (x :: sl)).
      rewrite firstn_all. cbn [Nat.add].
      rewrite firstn_app, firstn_all, Nat.sub_diag. cbn [firstn].
      rewrite app_nil_r.
      rewrite skipn_all2; [apply app_nil_r|].
      rewrite length_app. lia.
  - intros r1 r2 -> Hne. rewrite slash_run.
    destruct (exists_last Hne) as [r2' [z ->]].
    assert (Hz : z <> ch "/").
    { intros ->. apply (Hr (r1 ++ r2')). now rewrite app_assoc. }
    rewrite (forallb_slash_last _ _ Hz). now rewrite andb_false_r.
Qed.

Lemma trailing_slashes_removed_witness :
  replace re_trailing_slashes (str "") (str "https://example.com//")
  = str "https://example.com".
Proof.
  apply (@trailing_slashes_removed (str "https://example.com") 2).
  intros r' H. apply (f_equal (@rev N)) in H. rewrite rev_app_distr in H.
  vm_compute in H. discriminate H.
Defined.

(** ** Pages without markup *)

Lemma lt_sign_only (ic : bool) (x : N) :
  x <> ch "<" -> cset_mem ic (Lit (ch "<")) x = false.
Proof.
  intros H. change (ch "<") with 60%N in *.
  destruct ic; cbn [cset_mem item_mem]; unfold canon; N_cases.
Qed.

Lemma html_regexes_open (re : regex) :
  In re html_regexes -> exists p, body re = One (Lit (ch "<")) :: p.
Proof.
  unfold html_regexes. simpl.
  intros H.
  repeat (destruct H as [<-|H]; [eexists; reflexivity|]). contradiction.
Qed.

Lemma no_markup_no_match (re : regex) (s : jsstring) :
  In re html_regexes -> no_markup s ->
  match_here (ignoreCase re) (body re) s = None.
Proof.
  intros Hre Hs. destruct (html_regexes_open Hre) as [p ->].
  cbn [match_here]. destruct Hs as [|x s Hx Hs]; cbn [one]; [reflexivity|].
  now rewrite lt_sign_only.
Qed.

Lemma no_markup_suffix (pre post : jsstring) :
  no_markup (pre ++ post) -> no_markup post.
Proof. unfold no_markup. rewrite Forall_app. tauto. Qed.

Lemma no_markup_search (re : regex) (s : jsstring) (i : nat) :
  In re html_regexes -> no_markup s -> search_from re i s = None.
Proof.
  intros Hre Hs. revert i.
  induction s as [|x s IH]; intros i; cbn [search_from]; unfold match_at;
    rewrite (no_markup_no_match Hre Hs); [reflexivity|].
  apply IH. now inversion Hs.
Qed.

Lemma no_markup_scan (re : regex) (s : jsstring) :
  In re html_regexes -> no_markup s -> or_empty (match_all re s) = [].
Proof.
  intros Hre Hs.
  assert (H : scan re 0 s = []).
  { apply scan_nil_iff. intros pre post ->.
    apply (no_markup_no_match Hre). now apply no_markup_suffix in Hs. }
  unfold match_all. now rewrite H.
Qed.

Section Plain.
Context {browser : Browser}.

(** X11: on a page without any [<] every pattern fails and every analyzer
    returns zero counts: no heading, no image, no social tag, no link. *)
Theorem page_without_markup (text : jsstring) :
  no_markup text ->
  (forall re, In re html_regexes ->
     exec re text = None /\ match_all re text = None)
  /\ analyzeHeadingStructure text
     = {| headings := [];
          counts := {| h1 := 0; h2 := 0; h3 := 0; h4 := 0; h5 := 0; h6 := 0 |} |}
  /\ analyzeImages text = {| img_total := 0; withoutAlt := 0 |}
  /\ analyzeSocialTags text = {| openGraph := 0; twitter := 0 |}
  /\ analyzeLinks text = {| link_total := 0; external := 0; internal := 0 |}.
Proof.
  intros H.
  assert (S : forall re, In re html_regexes -> or_empty (match_all re text) = [])
    by (intros re Hre; now apply no_markup_scan).
  split; [|split; [|split; [|split]]].
  - intros re Hre. split.
    + unfold exec.
      replace (anchored re) with false
        by (revert Hre; unfold html_regexes; simpl; intros Hre;
            repeat (destruct Hre as [<-|Hre]; [reflexivity|]); contradiction).
      now apply no_markup_search.
    + specialize (S re Hre). unfold match_all in *.
      destruct (scan re 0 text); [reflexivity | discriminate S].
  - unfold analyzeHeadingStructure.
    rewrite (S re_heading) by (unfold html_regexes; simpl; tauto).
    reflexivity.
  - unfold analyzeImages.
    rewrite (S re_img) by (unfold html_regexes; simpl; tauto).
    reflexivity.
  - unfold analyzeSocialTags.
    rewrite (S re_og), (S re_twitter)
      by (unfold html_regexes; simpl; tauto).
    reflexivity.
  - unfold analyzeLinks.
    rewrite (S re_link) by (unfold html_regexes; simpl; tauto).
    reflexivity.
Qed.
End Plain.

Lemma page_without_markup_witness :
  analyzeLinks (browser := Fixture.browser) (str "plain text, no tags")
  = {| link_total := 0; external := 0; internal := 0 |}.
Proof.
  apply (page_without_markup (browser := Fixture.browser)
           (text := str "plain text, no tags")).
  unfold no_markup. repeat constructor; discriminate.
Defined.

(** ** Tags the detectors find *)

Lemma step_star (p : list atom) (s : jsstring) (c : cset) (ws : jsstring) :
  isSome (match_here true p s) = true ->
  Forall (fun x => cset_mem true c x = true) ws ->
  isSome (match_here true (Star c :: p) (ws ++ s)) = true.
Proof. intros Hp Hws. cbn [match_here]. now apply greedy_run. Qed.

Lemma inside_tag_not_gt (a : jsstring) :
  inside_tag a -> Forall (fun x => cset_mem true not_gt x = true) a.
Proof.
  apply Forall_impl. intros x Hx. change (ch ">") with 62%N in *.
  cbn [cset_mem not_gt existsb item_mem xorb]. change (ch ">") with 62%N.
  unfold canon. N_cases.
Qed.

Lemma unquoted_not_quote (v : jsstring) :
  unquoted v -> Forall (fun x => cset_mem true not_quote x = true) v.
Proof.
  apply Forall_impl. intros x [H1 H2].
  change (ch "'") with 39%N in *. change dq with 34%N in *.
  cbn [cset_mem not_quote existsb item_mem xorb].
  change (ch "'") with 39%N. change dq with 34%N.
  unfold canon. N_cases.
Qed.

Lemma found_somewhere (re : regex) (pre s : jsstring) :
  isSome (match_here (ignoreCase re) (body re) s) = true ->
  1 <= List.length (or_empty (match_all re (pre ++ s))).
Proof.
  intros H. unfold match_all.
  destruct (scan re 0 (pre ++ s)) as [|m ms] eqn:E; [|simpl; lia].
  exfalso. rewrite scan_nil_iff in E. rewrite (E pre s eq_refl) in H.
  discriminate H.
Qed.

Ltac lower_case := repeat constructor.

Lemma og_tag_matches (a v b post : jsstring) (q1 q2 : N) :
  inside_tag a -> is_quote q1 -> unquoted v -> is_quote q2 -> inside_tag b ->
  isSome (match_here true (body re_og)
            (prefixed_meta_tag "property" "og:" a q1 v q2 b ++ post)) = true.
Proof.
  intros Ha Hq1 Hv Hq2 Hb.
  unfold prefixed_meta_tag, re_og, re_meta_prefixed. cbn [body].
  rewrite <- !app_assoc. cbn [app].
  apply step_lit; [|lower_case].
  apply step_star; [|now apply inside_tag_not_gt].
  apply step_lit; [|lower_case]. apply step_lit; [|lower_case].
  apply step_quote; [|exact Hq1].
  apply step_lit; [|lower_case].
  apply step_star; [|now apply unquoted_not_quote].
  apply step_quote; [|exact Hq2].
  apply step_star; [|now apply inside_tag_not_gt].
  apply (step_lit [] post eq_refl ">"). lower_case.
Qed.

Lemma twitter_tag_matches (a v b post : jsstring) (q1 q2 : N) :
  inside_tag a -> is_quote q1 -> unquoted v -> is_quote q2 -> inside_tag b ->
  isSome (match_here true (body re_twitter)
            (prefixed_meta_tag "name" "twitter:" a q1 v q2 b ++ post)) = true.
Proof.
  intros Ha Hq1 Hv Hq2 Hb.
  unfold prefixed_meta_tag, re_twitter, re_meta_prefixed. cbn [body].
  rewrite <- !app_assoc. cbn [app].
  apply step_lit; [|lower_case].
  apply step_star; [|now apply inside_tag_not_gt].
  apply step_lit; [|lower_case]. apply step_lit; [|lower_case].
  apply step_quote; [|exact Hq1].
  apply step_lit; [|lower_case].
  apply step_star; [|now apply unquoted_not_quote].
  apply step_quote; [|exact Hq2].
  apply step_star; [|now apply inside_tag_not_gt].
  apply (step_lit [] post eq_refl ">"). lower_case.
Qed.

Lemma canonical_tag_matches (a b post : jsstring) (q1 q2 : N) :
  inside_tag a -> is_quote q1 -> is_quote q2 -> inside_tag b ->
  isSome (match_here true (body re_canonical)
            (canonical_tag a q1 q2 b ++ post)) = true.
Proof.
  intros Ha Hq1 Hq2 Hb.
  unfold canonical_tag, re_canonical. cbn [body].
  rewrite <- !app_assoc. cbn [app].
  apply step_lit; [|lower_case].
  apply step_star; [|now apply inside_tag_not_gt].
  apply step_lit; [|lower_case].
  apply step_quote; [|exact Hq1].
  apply step_lit; [|lower_case].
  apply step_quote; [|exact Hq2].
  apply step_star; [|now apply inside_tag_not_gt].
  apply (step_lit [] post eq_refl ">"). lower_case.
Qed.

Lemma anchor_tag_matches (a v b post : jsstring) (q1 q2 : N) :
  inside_tag a -> is_quote q1 -> unquoted v -> is_quote q2 -> inside_tag b ->
  isSome (match_here true (body re_link)
            (anchor_tag a q1 v q2 b ++ post)) = true.
Proof.
  intros Ha Hq1 Hv Hq2 Hb.
  unfold anchor_tag, re_link. cbn [body].
  rewrite <- !app_assoc. cbn [app].
  apply step_lit; [|lower_case].
  apply step_star; [|now apply inside_tag_not_gt].
  apply step_lit; [|lower_case].
  apply step_quote; [|exact Hq1].
  apply step_star; [|now apply unquoted_not_quote].
  apply step_quote; [|exact Hq2].
  apply step_star; [|now apply inside_tag_not_gt].
  apply (step_lit [] post eq_refl ">"). lower_case.
Qed.

Lemma img_tag_matches (a post : jsstring) :
  inside_tag a ->
  isSome (match_here true (body re_img) (img_tag a ++ post)) = true.
Proof.
  intros Ha. unfold img_tag, re_img. cbn [body].
  rewrite <- !app_assoc. cbn [app].
  apply step_lit; [|lower_case].
  apply step_star; [|now apply inside_tag_not_gt].
  apply (step_lit [] post eq_refl ">"). lower_case.
Qed.

Lemma title_element_matches (v post : jsstring) :
  one_line v ->
  isSome (match_here true (body re_title) (title_element v ++ post)) = true.
Proof.
  intros Hv. unfold title_element, re_title. cbn [body].
  rewrite <- !app_assoc. cbn [app].
  apply step_lit; [|lower_case].
  apply step_mark. apply step_lazy_dot; [|exact Hv].
  apply step_mark.
  apply (step_lit [] post eq_refl "</title>"). lower_case.
Qed.

Lemma viewport_tag_matches (ws post : jsstring) (q1 q2 : N) :
  spaces ws -> is_quote q1 -> is_quote q2 ->
  isSome (match_here true (body re_viewport) (viewport_tag ws q1 q2 ++ post))
  = true.
Proof.
  intros [Hne Hws] Hq1 Hq2. unfold viewport_tag, re_viewport. cbn [body].
  rewrite <- !app_assoc. cbn [app].
  apply step_lit; [|lower_case].
  apply step_plus; [| exact Hne | exact Hws].
  apply step_lit; [|lower_case].
  apply step_quote; [|exact Hq1].
  apply step_lit; [|lower_case].
  apply step_quote; [|exact Hq2].
  reflexivity.
Qed.

Lemma keywords_tag_matches (ws1 ws2 v post : jsstring) (q1 q2 q3 q4 : N) :
  spaces ws1 -> spaces ws2 ->
  is_quote q1 -> is_quote q2 -> is_quote q3 -> is_quote q4 -> one_line v ->
  isSome (match_here true (body re_keywords)
            (keywords_tag ws1 q1 q2 ws2 q3 v q4 ++ post)) = true.
Proof.
  intros [Hn1 Hw1] [Hn2 Hw2] Hq1 Hq2 Hq3 Hq4 Hv.
  unfold keywords_tag, re_keywords, re_meta_content. cbn [body].
  rewrite <- !app_assoc. cbn [app].
  apply step_lit; [|lower_case].
  apply step_plus; [| exact Hn1 | exact Hw1].
  apply step_lit; [|lower_case].
  apply step_quote; [|exact Hq1].
  apply step_lit; [|lower_case].
  apply step_quote; [|exact Hq2].
  apply step_plus; [| exact Hn2 | exact Hw2].
  apply step_lit; [|lower_case].
  apply step_quote; [|exact Hq3].
  apply step_mark. apply step_lazy_dot; [|exact Hv].
  apply step_mark. apply step_quote; [|exact Hq4].
  reflexivity.
Qed.

Lemma test_found (re : regex) (pre s : jsstring) :
  anchored re = false ->
  isSome (match_here (ignoreCase re) (body re) s) = true ->
  test re (pre ++ s) = true.
Proof.
  intros Ha H. rewrite test_isSome. unfold exec. rewrite Ha.
  now apply search_from_app.
Qed.

Section Found.
Context {browser : Browser}.
Variables (usesHttps robotsOk : bool) (pageLoadTime : float).
Variables pre post : jsstring.

Lemma title_row (text : jsstring) :
  option_map ok
    (row_of "Title Tag Present"
       (newResults usesHttps robotsOk pageLoadTime text))
  = Some (test re_title text).
Proof. reflexivity. Qed.

Lemma keywords_row (text : jsstring) :
  option_map ok
    (row_of "Meta Keywords" (newResults usesHttps robotsOk pageLoadTime text))
  = Some (test re_keywords text).
Proof. reflexivity. Qed.

Lemma viewport_row (text : jsstring) :
  option_map ok
    (row_of "Viewport Meta Tag"
       (newResults usesHttps robotsOk pageLoadTime text))
  = Some (test re_viewport text).
Proof. reflexivity. Qed.

Lemma canonical_row (text : jsstring) :
  option_map ok
    (row_of "Canonical URL" (newResults usesHttps robotsOk pageLoadTime text))
  = Some (test re_canonical text).
Proof. reflexivity. Qed.

(** X12: an Open Graph or Twitter meta tag is counted wherever it stands
    in the page and wherever the attribute stands in the tag, as long as the
    rest of the tag has no [>] and the value no quote. *)
Theorem social_tags_found (a v b : jsstring) (q1 q2 : N) :
  inside_tag a -> is_quote q1 -> unquoted v -> is_quote q2 -> inside_tag b ->
  1 <= openGraph
         (analyzeSocialTags
            (pre ++ prefixed_meta_tag "property" "og:" a q1 v q2 b ++ post))
  /\ 1 <= twitter
            (analyzeSocialTags
               (pre ++ prefixed_meta_tag "name" "twitter:" a q1 v q2 b
                ++ post)).
Proof.
  intros Ha Hq1 Hv Hq2 Hb. unfold analyzeSocialTags. cbn [openGraph twitter].
  split; apply found_somewhere;
    [now apply og_tag_matches | now apply twitter_tag_matches].
Qed.

(** X13: likewise an anchor with a quoted href is counted as a link and
    an img tag as an image, whatever else the tag holds before its [>]. *)
Theorem links_and_images_found (a v b : jsstring) (q1 q2 : N) :
  inside_tag a -> is_quote q1 -> unquoted v -> is_quote q2 -> inside_tag b ->
  1 <= link_total (analyzeLinks (pre ++ anchor_tag a q1 v q2 b ++ post))
  /\ 1 <= img_total (analyzeImages (pre ++ img_tag a ++ post)).
Proof.
  intros Ha Hq1 Hv Hq2 Hb. unfold analyzeLinks, analyzeImages.
  cbn [link_total img_total].
  split; apply found_somewhere;
    [now apply anchor_tag_matches | now apply img_tag_matches].
Qed.

(** X14: the Title Tag Present, Meta Keywords, Viewport Meta Tag and
    Canonical URL rows are ok on a page that holds, anywhere, a title
    element without attributes and with a one-line text, a keywords or
    viewport meta tag with the name attribute first, or a canonical link
    tag. *)
Theorem head_tags_found (ws1 ws2 v a b : jsstring) (q1 q2 q3 q4 : N) :
  spaces ws1 -> spaces ws2 ->
  is_quote q1 -> is_quote q2 -> is_quote q3 -> is_quote q4 ->
  one_line v -> inside_tag a -> inside_tag b ->
  let check l text :=
    option_map ok
      (row_of l (newResults usesHttps robotsOk pageLoadTime text)) in
  check "Title Tag Present" (pre ++ title_element v ++ post) = Some true
  /\ check "Meta Keywords"
       (pre ++ keywords_tag ws1 q1 q2 ws2 q3 v q4 ++ post) = Some true
  /\ check "Viewport Meta Tag" (pre ++ viewport_tag ws1 q1 q2 ++ post)
     = Some true
  /\ check "Canonical URL" (pre ++ canonical_tag a q1 q2 b ++ post)
     = Some true.
Proof.
  intros Hs1 Hs2 Hq1 Hq2 Hq3 Hq4 Hv Ha Hb. cbv beta zeta.
  rewrite title_row, keywords_row, viewport_row, canonical_row.
  split; [|split; [|split]]; f_equal; (apply test_found; [reflexivity|]).
  - now apply title_element_matches.
  - now apply keywords_tag_matches.
  - now apply viewport_tag_matches.
  - now apply canonical_tag_matches.
Qed.
End Found.

(** ** Headings in lower case *)

Section SuffixQ.
Variable c : N -> bool.
Variable k : jsstring -> option (list jsstring * jsstring).
Hypothesis k_suffix :
  forall s ms r, k s = Some (ms, r) -> exists pre, s = pre ++ r.

Lemma one_suffix (s : jsstring) (ms : list jsstring) (r : jsstring) :
  one c k s = Some (ms, r) -> exists pre, s = pre ++ r.
Proof.
  destruct s as [|x s]; simpl; [discriminate|].
  destruct (c x); [|discriminate].
  intros H. destruct (k_suffix H) as [pre ->]. now exists (x :: pre).
Qed.

Lemma greedy_suffix (s : jsstring) (ms : list jsstring) (r : jsstring) :
  greedy c k s = Some (ms, r) -> exists pre, s = pre ++ r.
Proof.
  induction s as [|x s IH]; simpl.
  - apply k_suffix.
  - destruct (c x); [|apply k_suffix].
    destruct (greedy c k s) as [[ms' r']|] eqn:E; [|apply k_suffix].
    intros H. injection H as -> ->.
    destruct (IH eq_refl) as [pre ->]. now exists (x :: pre).
Qed.

Lemma lazy_suffix (s : jsstring) (ms : list jsstring) (r : jsstring) :
  lazy c k s = Some (ms, r) -> exists pre, s = pre ++ r.
Proof.
  induction s as [|x s IH]; simpl.
  - destruct (k []) as [[ms' r']|] eqn:E; [|discriminate].
    intros H. injection H as -> ->. now apply k_suffix in E.
  - destruct (k (x :: s)) as [[ms' r']|] eqn:E.
    + intros H. injection H as -> ->. now apply k_suffix in E.
    + destruct (c x); [|discriminate].
      intros H. destruct (IH H) as [pre ->]. now exists (x :: pre).
Qed.
End SuffixQ.

Lemma match_here_suffix (ic : bool) (p : list atom) (s : jsstring)
    (ms : list jsstring) (r : jsstring) :
  match_here ic p s = Some (ms, r) -> exists pre, s = pre ++ r.
Proof.
  revert s ms r. induction p as [|a p IH]; intros s ms r.
  - simpl. intros H. injection H as _ <-. now exists [].
  - destruct a as [c|c|c|c|c| |]; cbn [match_here].
    + now apply one_suffix.
    + destruct (one _ _ s) as [[ms' r']|] eqn:E; [|apply IH].
      intros H. injection H as -> ->. revert E. now apply one_suffix.
    + now apply greedy_suffix.
    + apply one_suffix. intros t ms' r'. now apply greedy_suffix.
    + now apply lazy_suffix.
    + destruct (match_here ic p s) as [[ms' r']|] eqn:E; [|discriminate].
      intros H. injection H as _ <-. now apply IH in E.
    + destruct s; [apply IH | discriminate].
Qed.

Lemma consumed_app (pre r : jsstring) : consumed (pre ++ r) r = pre.
Proof.
  unfold consumed. rewrite length_app, Nat.add_sub.
  rewrite firstn_app, Nat.sub_diag, firstn_all. simpl. apply app_nil_r.
Qed.

(** Every match of a [g] pattern is what the pattern consumes at some
    position of the text. *)
Lemma scan_In (re : regex) (s : jsstring) (skip : nat) (m : jsstring) :
  In m (scan re skip s) ->
  exists pre post ms rest,
    s = pre ++ post
    /\ match_here (ignoreCase re) (body re) post = Some (ms, rest)
    /\ m = consumed post rest.
Proof.
  revert skip. induction s as [|x s IH]; intros skip.
  - destruct skip; simpl; [|intros []].
    unfold match_at.
    destruct (match_here (ignoreCase re) (body re) []) as [[ms rest]|] eqn:E;
      [|intros []].
    intros [<-|[]]. now exists [], [], ms, rest.
  - assert (Hcons : forall n, In m (scan re n s) ->
              exists pre post ms rest,
                x :: s = pre ++ post
                /\ match_here (ignoreCase re) (body re) post = Some (ms, rest)
                /\ m = consumed post rest).
    { intros n H. destruct (IH n H) as [pre [post [ms [rest [-> H0]]]]].
      now exists (x :: pre), post, ms, rest. }
    destruct skip; simpl; [|apply Hcons].
    unfold match_at.
    destruct (match_here (ignoreCase re) (body re) (x :: s))
      as [[ms rest]|] eqn:E; [|apply Hcons].
    intros [<-|H]; [|now apply Hcons in H].
    now exists [], (x :: s), ms, rest.
Qed.

Lemma to_lower_lt (x : N) : to_lower x = ch "<" -> x = ch "<".
Proof. change (ch "<") with 60%N. unfold to_lower. N_cases. Qed.

Lemma to_lower_h (x : N) : to_lower x = ch "h" -> x = ch "h" \/ x = ch "H".
Proof.
  change (ch "h") with 104%N. change (ch "H") with 72%N.
  unfold to_lower. N_cases.
Qed.

Lemma canon_digit (a d : N) :
  (48 <= a <= 57)%N -> (canon a =? canon d)%N = (a =? d)%N.
Proof. intros H. unfold canon. N_cases. Qed.

Lemma level_digit_range (d : N) :
  cset_mem true level_digit d = true -> (ch "1" <= d <= ch "6")%N.
Proof.
  change (ch "1") with 49%N. change (ch "6") with 54%N.
  cbn [cset_mem level_digit existsb item_mem xorb].
  change (nrange (ch "1") (ch "6")) with [49; 50; 51; 52; 53; 54]%N.
  cbn [existsb]. rewrite !canon_digit by lia.
  repeat (match goal with
          | |- context [N.eqb ?a ?b] => destruct (N.eqb_spec a b)
          end; try lia).
Qed.

Lemma heading_shape (post : jsstring) (ms : list jsstring) (rest : jsstring) :
  match_here true (body re_heading) post = Some (ms, rest) ->
  exists x1 d tl post',
    consumed post rest = ch "<" :: x1 :: d :: tl
    /\ post = ch "<" :: x1 :: post'
    /\ (x1 = ch "h" \/ x1 = ch "H")
    /\ (ch "1" <= d <= ch "6")%N.
Proof.
  change (body re_heading)
    with (map (fun c => One (Lit c)) (str "<h")
          ++ One level_digit
             :: (Star not_gt :: lit ">" ++ [Mark; LazyStar Dot; Mark]
                 ++ lit "</h" ++ [One level_digit] ++ lit ">")).
  rewrite match_here_lits by lower_case.
  generalize (Star not_gt :: lit ">" ++ [Mark; LazyStar Dot; Mark]
              ++ lit "</h" ++ [One level_digit] ++ lit ">") as p2.
  intros p2.
  destruct post as [|x0 [|x1 [|d s3]]]; try discriminate;
    cbn [map startsWith str String.list_ascii_of_string];
    destruct (N.eqb_spec (to_lower x0) (ch "<")) as [H0|]; try discriminate;
    destruct (N.eqb_spec (to_lower x1) (ch "h")) as [H1|]; try discriminate;
    cbn [andb List.length skipn match_here one]; try discriminate.
  destruct (cset_mem true level_digit d) eqn:Hd; [|discriminate].
  intros H. apply match_here_suffix in H as [pre ->].
  apply to_lower_lt in H0. subst x0.
  exists x1, d, pre, (d :: pre ++ rest).
  split; [apply (consumed_app (ch "<" :: x1 :: d :: pre))|].
  split; [reflexivity|].
  split; [now apply to_lower_h | now apply level_digit_range].
Qed.

Lemma exec_re_level (d : N) (tl : jsstring) :
  (ch "1" <= d <= ch "6")%N ->
  option_map group1 (exec re_level (ch "<" :: ch "h" :: d :: tl)) = Some [d].
Proof.
  change (ch "1") with 49%N. change (ch "6") with 54%N. intros Hd.
  unfold exec. cbn [anchored re_level search_from]. unfold match_at.
  cbn [body re_level ignoreCase lit String.list_ascii_of_string map app
       match_here one cset_mem item_mem level_digit existsb xorb].
  change (ch "<" =? ch "<")%N with true. change (ch "h" =? ch "h")%N with true.
  cbn iota.
  change (ch "1") with 49%N. change (ch "6") with 54%N.
  destruct (N.leb_spec 49 d); [|lia]. destruct (N.leb_spec d 54); [|lia].
  cbn [andb orb option_map group1 groups captures nth].
  f_equal. apply (consumed_app [d]).
Qed.

Lemma jsstring_eqb_single (d e : N) : jsstring_eqb [d] [e] = (d =? e)%N.
Proof.
  destruct (N.eqb_spec d e) as [->|H].
  - apply jsstring_eqb_refl.
  - apply not_true_iff_false. rewrite jsstring_eqb_eq. congruence.
Qed.

Lemma bump_digit (d e : N) (c : HeadingCounts) :
  (ch "1" <= d <= ch "6")%N -> (ch "1" <= e <= ch "6")%N ->
  count_at e (bump [d] c) = count_at e c + (if (e =? d)%N then 1 else 0)
  /\ heading_total (bump [d] c) = S (heading_total c).
Proof.
  change (ch "1") with 49%N. change (ch "6") with 54%N. intros Hd He.
  assert (D : (d = 49 \/ d = 50 \/ d = 51 \/ d = 52 \/ d = 53 \/ d = 54)%N)
    by lia.
  assert (E : (e = 49 \/ e = 50 \/ e = 51 \/ e = 52 \/ e = 53 \/ e = 54)%N)
    by lia.
  unfold heading_total.
  destruct D as [D|[D|[D|[D|[D|D]]]]];
    destruct E as [E|[E|[E|[E|[E|E]]]]];
    subst; split; cbn; lia.
Qed.

Section LowerCase.
Context {browser : Browser}.

Lemma count_heading_lower (c : HeadingCounts) (m : jsstring) (e : N) :
  lower_heading m -> (ch "1" <= e <= ch "6")%N ->
  count_at e (count_heading c m)
  = count_at e c + (if (level_of m =? e)%N then 1 else 0)
  /\ heading_total (count_heading c m) = S (heading_total c).
Proof.
  intros [d [tl [-> Hd]]] He. unfold count_heading.
  pose proof (exec_re_level tl Hd) as Hx.
  destruct (exec re_level (ch "<" :: ch "h" :: d :: tl)) as [m|];
    [|discriminate Hx].
  injection Hx as ->. cbn [level_of nth].
  rewrite N.eqb_sym. now apply bump_digit.
Qed.

Lemma fold_count_heading_lower (hs : list jsstring) (c : HeadingCounts)
    (e : N) :
  Forall lower_heading hs -> (ch "1" <= e <= ch "6")%N ->
  count_at e (fold_left count_heading hs c)
  = count_at e c
    + List.length (filter (fun m => (level_of m =? e)%N) hs)
  /\ heading_total (fold_left count_heading hs c)
     = heading_total c + List.length hs.
Proof.
  intros Hhs He. revert c.
  induction Hhs as [|m hs Hm Hhs IH]; intros c; simpl; [lia|].
  destruct (IH (count_heading c m)) as [IH1 IH2].
  destruct (count_heading_lower c Hm He) as [H1 H2].
  rewrite IH1, IH2, H1, H2.
  destruct (level_of m =? e)%N; simpl; lia.
Qed.

Lemma headings_found_lower (html : jsstring) :
  ~ occurs (str "<H") html ->
  Forall lower_heading (or_empty (match_all re_heading html)).
Proof.
  intros Hno. apply Forall_forall. intros m Hm.
  unfold match_all in Hm.
  assert (Hin : In m (scan re_heading 0 html))
    by (destruct (scan re_heading 0 html); [destruct Hm | exact Hm]).
  apply scan_In in Hin as [pre [post [ms [rest [-> [Hmatch ->]]]]]].
  apply heading_shape in Hmatch
    as [x1 [d [tl [post' [Hc [-> [[->| ->] Hd]]]]]]].
  - exists d, tl. now split.
  - exfalso. apply Hno. now exists pre, post'.
Qed.

Lemma count_at_start (e : N) :
  count_at e {| h1 := 0; h2 := 0; h3 := 0; h4 := 0; h5 := 0; h6 := 0 |} = 0.
Proof.
  unfold count_at. cbn [h1 h2 h3 h4 h5 h6]. now repeat destruct (e =? _)%N.
Qed.

(** X8: on a page where no [<H] occurs (heading tags are written in
    lower case) every heading found is counted once: the counter of each
    level is the number of headings found with that level digit, and the six
    counters add up to the number of headings found. *)
Theorem lower_case_headings_counted (html : jsstring) (e : N) :
  ~ occurs (str "<H") html ->
  (ch "1" <= e <= ch "6")%N ->
  let a := analyzeHeadingStructure html in
  count_at e (counts a)
  = List.length (filter (fun m => (level_of m =? e)%N) (headings a))
  /\ heading_total (counts a) = List.length (headings a).
Proof.
  intros Hno He. cbv zeta. unfold analyzeHeadingStructure.
  cbn [counts headings].
  destruct (fold_count_heading_lower
              {| h1 := 0; h2 := 0; h3 := 0; h4 := 0; h5 := 0; h6 := 0 |}
              (headings_found_lower Hno) He) as [H1 H2].
  rewrite H1, H2, count_at_start. split; reflexivity.
Qed.
End LowerCase.

Section LowerCaseRow.
Context {browser : Browser}.
Variables (usesHttps robotsOk : bool) (pageLoadTime : float).

(** X9: on such a page the H1 Tags row is ok exactly when one heading
    found is an h1. *)
Theorem h1_check_on_lower_case_page (html : jsstring) :
  ~ occurs (str "<H") html ->
  option_map ok
    (row_of "H1 Tags" (newResults usesHttps robotsOk pageLoadTime html))
  = Some (Nat.eqb
            (List.length
               (filter (fun m => (level_of m =? ch "1")%N)
                  (headings (analyzeHeadingStructure html))))
            1).
Proof.
  intros Hno.
  change (row_of "H1 Tags" _)
    with (Some (nth 8 (newResults usesHttps robotsOk pageLoadTime html)
                  (row "" "" false Details))).
  cbn [option_map nth newResults ok]. f_equal. f_equal.
  assert (He : (ch "1" <= ch "1" <= ch "6")%N)
    by (vm_compute; intuition discriminate).
  unfold analyzeHeadingStructure. cbn [counts headings].
  destruct (fold_count_heading_lower
              {| h1 := 0; h2 := 0; h3 := 0; h4 := 0; h5 := 0; h6 := 0 |}
              (headings_found_lower Hno) He) as [H1 _].
  exact H1.
Qed.
End LowerCaseRow.

(** ** The properties at work *)

Lemma not_occurs (needle s : jsstring) :
  includes s needle = false -> ~ occurs needle s.
Proof. intros H Ho. apply includes_iff in Ho. congruence. Qed.

Lemma handleCheck_blank_url_witness :
  handleCheck (browser := Fixture.browser) Fixture.online (Fixture.typed "   ")
  = (Ok tt,
     {| url := str "   "; results := None; loading := false;
        seoScore := None; loadTime := None; showPreview := false;
        toasts := [empty_url_toast] |}).
Proof.
  apply (handleCheck_blank_url (browser := Fixture.browser) Fixture.online
           (Fixture.typed "   ")).
  repeat constructor.
Defined.

Lemma handleCheck_body_failure_witness :
  loadTime
    (snd (handleCheck (browser := Fixture.browser) Fixture.truncated
            (Fixture.typed "example.com")))
  = Some 500%float
  /\ results
       (snd (handleCheck (browser := Fixture.browser) Fixture.truncated
               (Fixture.typed "example.com")))
     = None.
Proof.
  rewrite (@handleCheck_body_failure Fixture.browser Fixture.truncated
             (Fixture.typed "example.com")
             {| res_ok := true; res_type := type_cors;
                res_text := Throw (str "TypeError: network error") |}
             (str "TypeError: network error")).
  - split; vm_compute; reflexivity.
  - intros H. apply trim_empty_iff in H. vm_compute in H. discriminate H.
  - reflexivity.
  - reflexivity.
Defined.

Lemma handleCheck_success_witness :
  option_map (map ok)
    (results
       (snd (handleCheck (browser := Fixture.browser) Fixture.online
               (Fixture.typed "example.com"))))
  = Some [true; true; true; true; false; false; false; false; true; false;
          true; false; false; false; false; true; true; false].
Proof.
  rewrite (@handleCheck_success Fixture.browser Fixture.online
             (Fixture.typed "example.com")
             {| res_ok := true; res_type := type_cors;
                res_text := Ok Fixture.page |}
             Fixture.page).
  - vm_compute. reflexivity.
  - intros H. apply trim_empty_iff in H. vm_compute in H. discriminate H.
  - reflexivity.
  - reflexivity.
Defined.

Lemma letter_case_of_the_page_witness :
  analyzeSocialTags (str "<META PROPERTY='OG:TITLE' CONTENT='x'>")
  = analyzeSocialTags (str "<meta property='og:title' content='x'>").
Proof.
  apply (@letter_case_of_the_page Fixture.browser true true 0%float
           (str "<META PROPERTY='OG:TITLE' CONTENT='x'>")
           (str "<meta property='og:title' content='x'>")).
  vm_compute. reflexivity.
Defined.

Lemma every_card_has_a_title_witness :
  card_title (str "Meta Tags") <> [].
Proof.
  apply (@every_card_has_a_title
           (dummy_results (getDummyData (str "example.com")))
           (str "Meta Tags")).
  vm_compute. tauto.
Defined.

Lemma social_tags_found_witness :
  1 <= openGraph
         (analyzeSocialTags
            (str "<head>"
             ++ prefixed_meta_tag "property" "og:" (str " ") dq (str "title")
                  dq (str " content='x'")
             ++ str "</head>")).
Proof.
  apply (@social_tags_found (str "<head>") (str "</head>") (str " ")
           (str "title") (str " content='x'") dq dq).
  - repeat constructor; discriminate.
  - now left.
  - repeat constructor; discriminate.
  - now left.
  - repeat constructor; discriminate.
Defined.

Lemma links_and_images_found_witness :
  1 <= img_total
         (analyzeImages (str "<p>" ++ img_tag (str " src='a.png'") ++ str "</p>")).
Proof.
  apply (@links_and_images_found Fixture.browser (str "<p>") (str "</p>")
           (str " src='a.png'") (str "/") (str " src='a.png'")
           (ch "'") (ch "'")).
  - repeat constructor; discriminate.
  - now right.
  - repeat constructor; discriminate.
  - now right.
  - repeat constructor; discriminate.
Defined.

Lemma head_tags_found_witness :
  option_map ok
    (row_of "Title Tag Present"
       (newResults (browser := Fixture.browser) true true 0%float
          (str "<head>" ++ title_element (str "Home") ++ str "</head>")))
  = Some true.
Proof.
  apply (@head_tags_found Fixture.browser true true 0%float (str "<head>")
           (str "</head>") (str " ") (str " ") (str "Home") (str " ")
           (str " ") dq dq dq dq).
  - split; [discriminate | repeat constructor].
  - split; [discriminate | repeat constructor].
  - now left.
  - now left.
  - now left.
  - now left.
  - repeat constructor.
  - repeat constructor; discriminate.
  - repeat constructor; discriminate.
Defined.

Lemma lower_case_headings_counted_witness :
  count_at (ch "2")
    (counts
       (analyzeHeadingStructure
          (str "<h1>a</h1><h2>b</h2><h2 class='x'>c</h2>")))
  = 2.
Proof.
  assert (Hno : ~ occurs (str "<H")
                    (str "<h1>a</h1><h2>b</h2><h2 class='x'>c</h2>"))
    by (apply not_occurs; vm_compute; reflexivity).
  assert (He : (ch "1" <= ch "2" <= ch "6")%N)
    by (vm_compute; intuition discriminate).
  rewrite (proj1 (lower_case_headings_counted Hno He)).
  vm_compute. reflexivity.
Defined.

Lemma h1_check_on_lower_case_page_witness :
  option_map ok
    (row_of "H1 Tags"
       (newResults (browser := Fixture.browser) true true 0%float
          (str "<h1>a</h1><h1>b</h1>")))
  = Some false.
Proof.
  rewrite (@h1_check_on_lower_case_page Fixture.browser true true 0%float
             (str "<h1>a</h1><h1>b</h1>")).
  - vm_compute. reflexivity.
  - apply not_occurs. vm_compute. reflexivity.
Defined.

(** ** The text the Details rows show *)

Section ExactSteps.
Variable p : list atom.
Variable s : jsstring.
Variable r : list jsstring * jsstring.
Hypothesis rest_result : match_here true p s = Some r.

Lemma exact_lit (w : String.string) :
  Forall (fun c => to_lower c = c) (str w) ->
  match_here true (lit w ++ p) (str w ++ s) = Some r.
Proof.
  intros Hw. rewrite lit_str, (match_here_lits _ _ Hw), map_app.
  replace (map to_lower (str w)) with (str w).
  - rewrite startsWith_self, skipn_app, skipn_all, Nat.sub_diag.
    exact rest_result.
  - induction Hw as [|c l Hc Hl IH]; simpl; [reflexivity|].
    now rewrite Hc, <- IH.
Qed.

Lemma exact_greedy (c : N -> bool) (ws : jsstring) :
  Forall (fun x => c x = true) ws ->
  match s with x :: _ => c x = false | [] => True end ->
  greedy c (match_here true p) (ws ++ s) = Some r.
Proof.
  intros Hws Hs. induction Hws as [|x ws Hx Hws IH]; simpl.
  - destruct s as [|y t]; simpl; [exact rest_result|].
    now rewrite Hs.
  - now rewrite Hx, IH.
Qed.

Lemma exact_plus (c : cset) (ws : jsstring) :
  ws <> [] -> Forall (fun x => cset_mem true c x = true) ws ->
  match s with x :: _ => cset_mem true c x = false | [] => True end ->
  match_here true (Plus c :: p) (ws ++ s) = Some r.
Proof.
  intros Hne Hws Hs. destruct Hws as [|x ws Hx Hws]; [congruence|].
  cbn [match_here app one]. rewrite Hx. now apply exact_greedy.
Qed.

Lemma exact_quote (q : N) :
  is_quote q -> match_here true (One quote :: p) (q :: s) = Some r.
Proof. intros [-> | ->]; exact rest_result. Qed.

End ExactSteps.

Lemma lazy_stops (R : Type) (c : N -> bool) (k : jsstring -> option R)
    (v s : jsstring) (r : R) :
  Forall (fun x => c x = true) v ->
  (forall x t, In x v -> k (x :: t) = None) ->
  k s = Some r ->
  lazy c k (v ++ s) = Some r.
Proof.
  intros Hv Hk Hs. induction Hv as [|x v Hx Hv IH].
  - destruct s; simpl; now rewrite Hs.
  - cbn [app lazy]. rewrite (Hk x (v ++ s)) by now left.
    rewrite Hx. apply IH. intros y t Hy. apply Hk. now right.
Qed.

Lemma exact_lazy (p : list atom) (s : jsstring)
    (r : list jsstring * jsstring) (c : cset) (v : jsstring) :
  match_here true p s = Some r ->
  Forall (fun x => cset_mem true c x = true) v ->
  (forall x t, In x v -> match_here true p (x :: t) = None) ->
  match_here true (LazyStar c :: p) (v ++ s) = Some r.
Proof.
  intros Hs Hv Hk. cbn [match_here]. now apply lazy_stops.
Qed.

Lemma exact_mark (p : list atom) (s : jsstring) (ms : list jsstring)
    (r : jsstring) :
  match_here true p s = Some (ms, r) ->
  match_here true (Mark :: p) s = Some (s :: ms, r).
Proof. intros H. cbn [match_here]. now rewrite H. Qed.

Lemma not_open_no_match (re : regex) (x : N) (s : jsstring) :
  In re html_regexes -> x <> ch "<" ->
  match_here (ignoreCase re) (body re) (x :: s) = None.
Proof.
  intros Hre Hx. destruct (html_regexes_open Hre) as [p ->].
  cbn [match_here one]. now rewrite lt_sign_only.
Qed.

(** After text without markup the first match is the match at its end. *)
Lemma exec_after_plain (re : regex) (pre s : jsstring)
    (ms : list jsstring) (rest : jsstring) :
  In re html_regexes -> anchored re = false -> no_markup pre ->
  match_here (ignoreCase re) (body re) s = Some (ms, rest) ->
  exec re (pre ++ s)
  = Some {| index := List.length pre; whole := consumed s rest;
            groups := captures ms |}.
Proof.
  intros Hre Ha Hpre Hm. unfold exec. rewrite Ha.
  rewrite search_from_skip.
  - destruct s; cbn [search_from]; unfold match_at; now rewrite Hm.
  - intros r1 r2 -> Hne. destruct r2 as [|x r2]; [congruence|].
    apply (not_open_no_match _ Hre).
    apply no_markup_suffix in Hpre. now inversion Hpre.
Qed.

Lemma mark_then_open (p : list atom) (x : N) (t : jsstring) :
  x <> ch "<" ->
  match_here true (Mark :: One (Lit (ch "<")) :: p) (x :: t) = None.
Proof. intros H. cbn [match_here one]. now rewrite lt_sign_only. Qed.

Lemma title_element_result (v post : jsstring) :
  one_line v -> no_markup v ->
  match_here true (body re_title) (title_element v ++ post)
  = Some ([v ++ str "</title>" ++ post; str "</title>" ++ post], post).
Proof.
  intros Hv Hp. unfold title_element, re_title. cbn [body].
  rewrite <- !app_assoc.
  apply exact_lit; [|lower_case].
  apply exact_mark. apply exact_lazy.
  - apply exact_mark. apply (@exact_lit [] post ([], post) eq_refl "</title>").
    lower_case.
  - apply Forall_impl with (2 := Hv). intros x Hx. simpl. now rewrite Hx.
  - intros x t Hx. apply (mark_then_open (lit "/title>")).
    unfold no_markup in Hp. rewrite Forall_forall in Hp. now apply Hp.
Qed.

Lemma quote_not_member (x : N) :
  x <> dq /\ x <> ch "'" -> cset_mem true quote x = false.
Proof.
  intros [H1 H2]. change (ch "'") with 39%N in *. change dq with 34%N in *.
  cbn [cset_mem quote existsb item_mem xorb].
  change (ch "'") with 39%N. change dq with 34%N.
  unfold canon. N_cases.
Qed.

Lemma blank_is_space (ws : jsstring) :
  blank ws -> Forall (fun x => cset_mem true Space x = true) ws.
Proof. exact (fun H => H). Qed.

Lemma description_tag_result (ws1 ws2 v post : jsstring) (q1 q2 q3 q4 : N) :
  spaces ws1 -> spaces ws2 ->
  is_quote q1 -> is_quote q2 -> is_quote q3 -> is_quote q4 ->
  one_line v -> unquoted v ->
  match_here true (body re_desc)
    (description_tag ws1 q1 q2 ws2 q3 v q4 ++ post)
  = Some ([v ++ q4 :: post; q4 :: post], post).
Proof.
  intros [Hn1 Hw1] [Hn2 Hw2] Hq1 Hq2 Hq3 Hq4 Hv Hu.
  unfold description_tag, re_desc, re_meta_content. cbn [body].
  rewrite <- !app_assoc. cbn [app].
  apply exact_lit; [|lower_case].
  apply exact_plus; [| exact Hn1 | exact Hw1 | reflexivity].
  apply exact_lit; [|lower_case].
  apply exact_quote; [|exact Hq1].
  apply exact_lit; [|lower_case].
  apply exact_quote; [|exact Hq2].
  apply exact_plus; [| exact Hn2 | exact Hw2 | reflexivity].
  apply exact_lit; [|lower_case].
  apply exact_quote; [|exact Hq3].
  apply exact_mark. apply exact_lazy.
  - apply exact_mark. now apply exact_quote.
  - apply Forall_impl with (2 := Hv). intros x Hx. simpl. now rewrite Hx.
  - intros x t Hx. cbn [match_here one].
    rewrite quote_not_member; [reflexivity|].
    unfold unquoted in Hu. rewrite Forall_forall in Hu. now apply Hu.
Qed.

Section Shown.
Context {browser : Browser}.
Variables (usesHttps robotsOk : bool) (pageLoadTime : float).
Variables pre post : jsstring.

Lemma page_title_row (text : jsstring) :
  row_of "Page Title" (newResults usesHttps robotsOk pageLoadTime text)
  = Some {| label := str "Page Title";
            value := match exec re_title text with
                     | Some m => Span mono_class [group1 m]
                     | None => missing_node
                     end;
            ok := isSome (exec re_title text);
            category := Details |}.
Proof. reflexivity. Qed.

Lemma meta_description_row (text : jsstring) :
  row_of "Meta Description" (newResults usesHttps robotsOk pageLoadTime text)
  = Some {| label := str "Meta Description";
            value := match exec re_desc text with
                     | Some m => Span mono_class [group1 m]
                     | None => missing_node
                     end;
            ok := isSome (exec re_desc text);
            category := Details |}.
Proof. reflexivity. Qed.

(** X20: a title element that follows text without markup, and whose own
    text is on one line and has no [<], is the first match of the title
    pattern, and the Page Title row shows exactly its text. *)
Theorem title_shown (v : jsstring) :
  no_markup pre -> one_line v -> no_markup v ->
  let text := pre ++ title_element v ++ post in
  exec re_title text
  = Some {| index := List.length pre; whole := title_element v;
            groups := [v] |}
  /\ row_of "Page Title" (newResults usesHttps robotsOk pageLoadTime text)
     = Some {| label := str "Page Title"; value := Span mono_class [v];
               ok := true; category := Details |}.
Proof.
  intros Hpre Hv Hp. cbv zeta.
  assert (E : exec re_title (pre ++ title_element v ++ post)
              = Some {| index := List.length pre; whole := title_element v;
                        groups := [v] |}).
  { rewrite (@exec_after_plain re_title pre (title_element v ++ post)
               [v ++ str "</title>" ++ post; str "</title>" ++ post] post);
      [ | unfold html_regexes; simpl; tauto | reflexivity | exact Hpre
        | now apply title_element_result ].
    rewrite consumed_app. cbn [captures]. now rewrite consumed_app. }
  split; [exact E|]. rewrite page_title_row, E. reflexivity.
Qed.

(** X21: likewise the Meta Description row shows exactly the content of a
    description meta tag (name first, content next) that follows text
    without markup, when the content is on one line and holds no quote. *)
Theorem description_shown (ws1 ws2 v : jsstring) (q1 q2 q3 q4 : N) :
  no_markup pre -> spaces ws1 -> spaces ws2 ->
  is_quote q1 -> is_quote q2 -> is_quote q3 -> is_quote q4 ->
  one_line v -> unquoted v ->
  let text := pre ++ description_tag ws1 q1 q2 ws2 q3 v q4 ++ post in
  exec re_desc text
  = Some {| index := List.length pre;
            whole := description_tag ws1 q1 q2 ws2 q3 v q4;
            groups := [v] |}
  /\ row_of "Meta Description"
       (newResults usesHttps robotsOk pageLoadTime text)
     = Some {| label := str "Meta Description";
               value := Span mono_class [v];
               ok := true; category := Details |}.
Proof.
  intros Hpre Hs1 Hs2 Hq1 Hq2 Hq3 Hq4 Hv Hu. cbv zeta.
  assert (E : exec re_desc
                (pre ++ description_tag ws1 q1 q2 ws2 q3 v q4 ++ post)
              = Some {| index := List.length pre;
                        whole := description_tag ws1 q1 q2 ws2 q3 v q4;
                        groups := [v] |}).
  { rewrite (@exec_after_plain re_desc pre
               (description_tag ws1 q1 q2 ws2 q3 v q4 ++ post)
               [v ++ q4 :: post; q4 :: post] post);
      [ | unfold html_regexes; simpl; tauto | reflexivity | exact Hpre
        | now apply description_tag_result ].
    rewrite consumed_app. cbn [captures].
    now rewrite (consumed_app v (q4 :: post)). }
  split; [exact E|]. rewrite meta_description_row, E. reflexivity.
Qed.

(** X22: when the page that runs the checkup has no host name (every
    string includes the empty string), no link is external: all the links
    found count as internal. *)
Theorem links_without_hostname (html : jsstring) :
  location_hostname = [] ->
  external (analyzeLinks html) = 0
  /\ internal (analyzeLinks html) = link_total (analyzeLinks html).
Proof.
  intros H. unfold analyzeLinks. cbn [external internal link_total].
  assert (I : forall link, is_internal link = true).
  { intros link. unfold is_internal. rewrite H.
    replace (includes link []) with true; [apply orb_true_r|].
    destruct link; reflexivity. }
  assert (E : forall link, is_external link = false).
  { intros link. rewrite <- (negb_involutive (is_external link)).
    now rewrite <- is_internal_complement, I. }
  split.
  - rewrite (filter_ext _ (fun _ => false) E).
    induction (or_empty (match_all re_link html)) as [|a l IH];
      [reflexivity | exact IH].
  - rewrite (filter_ext _ (fun _ => true) I).
    induction (or_empty (match_all re_link html)) as [|a l IH];
      [reflexivity | simpl; now rewrite IH].
Qed.
End Shown.

Lemma title_shown_witness :
  row_of "Page Title"
    (newResults (browser := Fixture.browser) true true 0%float
       (str "hello " ++ title_element (str "Home") ++ str "<p>x</p>"))
  = Some {| label := str "Page Title";
            value := Span mono_class [str "Home"];
            ok := true; category := Details |}.
Proof.
  apply (@title_shown Fixture.browser true true 0%float (str "hello ")
           (str "<p>x</p>") (str "Home")).
  - repeat constructor; discriminate.
  - repeat constructor.
  - repeat constructor; discriminate.
Defined.

Lemma description_shown_witness :
  row_of "Meta Description"
    (newResults (browser := Fixture.browser) true true 0%float
       (str "hello "
        ++ description_tag (str " ") dq dq (str " ") dq (str "About us") dq
        ++ str ">"))
  = Some {| label := str "Meta Description";
            value := Span mono_class [str "About us"];
            ok := true; category := Details |}.
Proof.
  apply (@description_shown Fixture.browser true true 0%float (str "hello ")
           (str ">") (str " ") (str " ") (str "About us") dq dq dq dq).
  - repeat constructor; discriminate.
  - split; [discriminate | repeat constructor].
  - split; [discriminate | repeat constructor].
  - now left.
  - now left.
  - now left.
  - now left.
  - repeat constructor.
  - repeat constructor; discriminate.
Defined.

Lemma links_without_hostname_witness :
  external
    (analyzeLinks (browser := Fixture.local_file)
       (str "<a href='https://elsewhere.example/'>out</a>"))
  = 0.
Proof.
  apply (@links_without_hostname Fixture.local_file
           (str "<a href='https://elsewhere.example/'>out</a>")).
  reflexivity.
Defined.

(** ** The image finder against the words of the specification *)

Lemma not_gt_mem (x : N) : cset_mem true not_gt x = negb (x =? ch ">")%N.
Proof.
  change (ch ">") with 62%N.
  cbn [cset_mem not_gt existsb item_mem xorb]. change (ch ">") with 62%N.
  unfold canon. N_cases.
Qed.

Lemma gt_step (x : N) (t : jsstring) :
  match_here true (lit ">") (x :: t)
  = if (x =? ch ">")%N then Some ([], t) else None.
Proof.
  change (lit ">") with [One (Lit (ch ">"))]. cbn [match_here one].
  cbn [cset_mem item_mem]. change (ch ">") with 62%N. unfold canon. N_cases.
Qed.

(** [[^>]*>] consumes the text through its first [>]. *)
Lemma greedy_through_gt (t : jsstring) :
  match_here true (Star not_gt :: lit ">") t
  = option_map (fun b => ([], skipn (List.length b) t)) (through_gt t).
Proof.
  cbn [match_here]. induction t as [|x t IH]; [reflexivity|].
  cbn [greedy through_gt]. rewrite not_gt_mem, gt_step.
  destruct (x =? ch ">")%N; cbn [negb]; [reflexivity|].
  rewrite IH. now destruct (through_gt t).
Qed.

Lemma through_gt_prefix (t b : jsstring) :
  through_gt t = Some b -> t = b ++ skipn (List.length b) t.
Proof.
  revert b. induction t as [|x t IH]; intros b; cbn [through_gt];
    [discriminate|].
  destruct (x =? ch ">")%N.
  - intros H. inversion H. reflexivity.
  - destruct (through_gt t) as [b'|]; cbn [option_map]; [|discriminate].
    intros H. inversion H. simpl. f_equal. now apply IH.
Qed.

Lemma match_at_re_img (i : nat) (s : jsstring) :
  match_at re_img i s
  = option_map (fun t => {| index := i; whole := t; groups := [] |})
      (img_tag_at s).
Proof.
  unfold match_at, img_tag_at. cbn [ignoreCase re_img].
  change (body re_img)
    with (map (fun c => One (Lit c)) (str "<img")
          ++ Star not_gt :: lit ">").
  rewrite match_here_lits by lower_case.
  fold (ci_prefix (str "<img") s).
  destruct (ci_prefix (str "<img") s) eqn:Hp; [|reflexivity].
  rewrite greedy_through_gt.
  change (List.length (str "<img")) with 4.
  destruct (through_gt (skipn 4 s)) as [b|] eqn:Hb; [|reflexivity].
  cbn [option_map captures]. f_equal. f_equal.
  apply through_gt_prefix in Hb.
  rewrite <- (firstn_skipn 4 s) at 1. rewrite Hb at 1.
  rewrite app_assoc. apply consumed_app.
Qed.

Lemma scan_re_img (skip : nat) (s : jsstring) :
  scan re_img skip s = img_tags_from skip s.
Proof.
  revert skip. induction s as [|x s IH]; intros [|n]; try reflexivity.
  - cbn [scan img_tags_from]. rewrite match_at_re_img.
    destruct (img_tag_at (x :: s)) as [t|]; cbn [option_map whole];
      now rewrite IH.
  - cbn [scan img_tags_from]. apply IH.
Qed.

Lemma img_tags_spec (html : jsstring) : img_tags html = img_tags_of html.
Proof.
  unfold img_tags, img_tags_of, match_all. rewrite scan_re_img.
  now destruct (img_tags_from 0 html).
Qed.

(** C3, as stated, fails: a tag with a data-alt attribute and no alt
    attribute passes the check, and a tag whose alt attribute is written in
    upper case, with a value, fails it; the source looks for the text alt= in
    the tag, it does not read attributes. *)
Lemma C3_alt_attribute_not_read :
  img_tags_of (str "<img data-alt='x' src='c'>")
  = [str "<img data-alt='x' src='c'>"]
  /\ alt_attribute (str "<img data-alt='x' src='c'>") = None
  /\ option_map ok
       (row_of "Images Alt Text"
          (newResults (browser := Fixture.browser) true true 0%float
             (str "<img data-alt='x' src='c'>")))
     = Some true
  /\ img_tags_of (str "<IMG SRC='b' ALT='B'>") = [str "<IMG SRC='b' ALT='B'>"]
  /\ alt_attribute (str "<IMG SRC='b' ALT='B'>") = Some (str "B")
  /\ option_map ok
       (row_of "Images Alt Text"
          (newResults (browser := Fixture.browser) true true 0%float
             (str "<IMG SRC='b' ALT='B'>")))
     = Some false.
Proof. repeat split; vm_compute; reflexivity. Qed.

Section ImagesTextual.
Context {browser : Browser}.
Variables (usesHttps robotsOk : bool) (pageLoadTime : float).

(** C3, amended: the images the check looks at are the img tags of the
    text read from left to right ([<img] in any letter case, through the next
    [>], each tag looked for after the end of the one before), and the
    Images Alt Text row is ok exactly when there is no such tag or none of
    them is missing its alt text in the textual sense: the text [alt=], in
    lower case, occurs somewhere in the tag, and neither of the two empty
    forms, alt= followed by two double quotes or by two single quotes,
    does. *)
Theorem C3_images_alt_check_textual (text : jsstring) :
  or_empty (match_all re_img text) = img_tags_of text
  /\ exists r,
       row_of "Images Alt Text"
         (newResults usesHttps robotsOk pageLoadTime text) = Some r
       /\ (ok r = true
           <-> img_tags_of text = []
               \/ forall img, In img (img_tags_of text) ->
                    occurs (str "alt=") img
                    /\ ~ occurs (str "alt=" ++ [dq; dq]) img
                    /\ ~ occurs (str "alt=''") img).
Proof.
  split; [apply img_tags_spec|].
  eexists. split; [reflexivity|].
  cbn [ok analyzeImages img_total withoutAlt].
  fold (img_tags text). rewrite img_tags_spec.
  rewrite orb_true_iff, !length_zero_iff, filter_nil_iff.
  assert (E : forall img,
             img_without_alt img <> true
             <-> occurs (str "alt=") img
                 /\ ~ occurs (str "alt=" ++ [dq; dq]) img
                 /\ ~ occurs (str "alt=''") img).
  { intros img. unfold img_without_alt.
    rewrite <- !includes_iff.
    destruct (includes img (str "alt=")),
             (includes img (str "alt=" ++ [dq; dq])),
             (includes img (str "alt=''")); cbn; intuition congruence. }
  split; (intros [H|H]; [now left | right]);
    intros img Hin; apply E; now apply H.
Qed.
End ImagesTextual.

(** ** The preview *)

Section Preview.
Context {browser : Browser}.

(** X19: the preview never throws and never shows an empty host name: it
    stores the preview rows for the host of the typed URL exactly when the
    URL is not empty and the URL constructor, given the URL (after http://
    when it has no scheme), returns a non-empty host, and for example.com in
    every other case (no URL, a URL that does not parse, an empty host);
    with that it stores the fixed score and load time, turns the preview
    notice on and shows one toast; the URL and the loading flag stay. *)
Theorem handlePreview_state (st : UiState) :
  let hostname :=
    preview_host (url st)
      (URL_hostname (if has_scheme (url st) then url st
                     else str "http://" ++ url st)) in
  handlePreview st
  = (Ok tt,
     {| url := url st;
        results := Some (dummy_results (getDummyData hostname));
        loading := loading st;
        seoScore :=
          Some {| score := 16; total := 16; percentage := 100%float |};
        loadTime := Some 1200%float;
        showPreview := true;
        toasts := toasts st ++ [preview_toast] |})
  /\ hostname <> [].
Proof.
  cbv zeta. split.
  - unfold handlePreview, bind, lift, ret, update.
    destruct (url st) as [|x u] eqn:Hu; cbn [is_empty negb preview_host].
    + unfold toast, setShowPreview, setLoadTime, setSeoScore, setResults.
      cbn. now rewrite Hu.
    + rewrite extractHostname_eq.
      destruct (URL_hostname _) as [[|y h]|e]; cbn [is_empty];
        unfold toast, setShowPreview, setLoadTime, setSeoScore, setResults;
        cbn; now rewrite Hu.
  - unfold preview_host.
    destruct (url st); [discriminate|].
    destruct (URL_hostname _) as [[|y h]|e]; discriminate.
Qed.
End Preview.

Lemma handlePreview_state_witness :
  option_map (fun r => value r)
    (match results
             (snd (handlePreview (browser := Fixture.browser)
                     (Fixture.typed "https://mysite.org/page"))) with
     | Some rows => row_of "Page Title" rows
     | None => None
     end)
  = Some (Span mono_class
            [str "mysite.org";
             str " - Platform SEO Terbaik untuk Analisis Website Professional"]).
Proof.
  rewrite (proj1 (@handlePreview_state Fixture.browser
                    (Fixture.typed "https://mysite.org/page"))).
  vm_compute. reflexivity.
Defined.
